(** * Extrusion of 2D polygons into 3D meshes: [scripts/extrude.py]

    A shallow embedding of [polygon_to_3d_top] and [polygon_side_walls]
    and the properties of the mesh fragments they return.

    Python floats are IEEE binary64 numbers, here Rocq's primitive floats;
    Python integers are [Z]; positions in a list are [nat].  The six lists
    and the running [vertex_offset] that the source mutates in its loops
    are threaded through the loops as an explicit state record, and a
    raised exception is the [Raise] case of [result]. *)

From Stdlib Require Import Strings.String.
From Stdlib Require Import ZArith List Lia Bool Arith.
From Stdlib Require Import Floats.PrimFloat.
Import ListNotations.

(** ** Exceptions *)

Inductive exn : Set :=
| ValueError      (* [x1, y1 = c] on a tuple that has not two items *)
| IndexError      (* a list subscript out of range *)
| GEOSException.  (* raised inside the external [triangulate] *)

Inductive result (A : Type) : Type :=
| Ok (a : A)
| Raise (e : exn).

Arguments Ok {A} a.
Arguments Raise {A} e.

Definition bind {A B : Type} (r : result A) (k : A -> result B) : result B :=
  match r with
  | Ok a => k a
  | Raise e => Raise e
  end.

Declare Scope result_scope.
Delimit Scope result_scope with result.
Notation "x <- r ;; k" := (bind r (fun x => k))
  (at level 61, r at next level, right associativity) : result_scope.
Notation "' p <- r ;; k" := (bind r (fun x => let p := x in k))
  (at level 61, p pattern, r at next level, right associativity) : result_scope.
Local Open Scope result_scope.

(** [for x in l: st = body(st, x)], stopping at the first exception. *)
Fixpoint for_each {A S : Type} (body : S -> A -> result S) (l : list A) (st : S)
  : result S :=
  match l with
  | [] => Ok st
  | a :: l' => st' <- body st a ;; for_each body l' st'
  end.

(** ** Data *)

(** A z value of a vertex: the height [z_top] the caller passes (a float,
    or an integer when the attribute column is integral) or the integer
    literal [0] of the wall base. *)
Inductive num : Set :=
| Float (f : float)
| Int (n : Z).

(** A coordinate tuple of a shapely coordinate sequence: two floats, or
    three when the geometry has a z dimension. *)
Inductive coord : Set :=
| XY (x y : float)
| XYZ (x y z : float).

(** [c[0]] and [c[1]]. *)
Definition coord_x (c : coord) : float :=
  match c with XY x _ => x | XYZ x _ _ => x end.

Definition coord_y (c : coord) : float :=
  match c with XY _ y => y | XYZ _ y _ => y end.

(** [a == b] on tuples of floats: same length and the items pairwise [==]
    as floats (so a NaN item equals nothing, and [0.0 == -0.0]).  The items
    of two different tuples of a coordinate list are different objects, so
    the identity shortcut of the comparison never applies. *)
Definition coord_eqb (a b : coord) : bool :=
  match a, b with
  | XY x1 y1, XY x2 y2 => PrimFloat.eqb x1 x2 && PrimFloat.eqb y1 y2
  | XYZ x1 y1 z1, XYZ x2 y2 z2 =>
      PrimFloat.eqb x1 x2 && PrimFloat.eqb y1 y2 && PrimFloat.eqb z1 z2
  | _, _ => false
  end.

(** [x1, y1 = c]. *)
Definition unpack2 (c : coord) : result (float * float) :=
  match c with
  | XY x y => Ok (x, y)
  | XYZ _ _ _ => Raise ValueError
  end.

(** [l[n]] for [n >= 0]. *)
Definition getitem {A : Type} (l : list A) (n : nat) : result A :=
  match nth_error l n with
  | Some a => Ok a
  | None => Raise IndexError
  end.

(** A shapely [Polygon]: [exterior] is [list(poly.exterior.coords)]. *)
Record Polygon : Set := mkPolygon { exterior : list coord }.

(** The argument [geometry]: a [Polygon] or a [MultiPolygon] with its
    [geoms]. *)
Inductive geometry : Set :=
| GPolygon (p : Polygon)
| GMultiPolygon (geoms : list Polygon).

(** [polys]: [list(geometry.geoms)] for a MultiPolygon, else [[geometry]]. *)
Definition polys_of (g : geometry) : list Polygon :=
  match g with
  | GMultiPolygon geoms => geoms
  | GPolygon p => [p]
  end.

(** The returned dict, with its keys ['x'], ['y'], ['z'], ['i'], ['j'], ['k']. *)
Record fragment : Set := mkFragment {
  fx : list float;
  fy : list float;
  fz : list num;
  fi : list Z;
  fj : list Z;
  fk : list Z
}.

Definition empty_fragment : fragment := mkFragment [] [] [] [] [] [].

(** ** [polygon_to_3d_top] *)

Record top_state : Set := mkTop {
  top_x : list float;
  top_y : list float;
  top_z : list num;
  top_i : list Z;
  top_j : list Z;
  top_k : list Z;
  top_vertex_offset : Z
}.

Definition top_init : top_state := mkTop [] [] [] [] [] [] 0.

(** The body of [for tri in triangles]. *)
Definition top_triangle (z_top : num) (st : top_state) (tri : Polygon) : top_state :=
  let coords := exterior tri in
  let x_coords := map coord_x (firstn 3 coords) in
  let y_coords := map coord_y (firstn 3 coords) in
  let z_coords := [z_top; z_top; z_top] in
  let vertex_offset := top_vertex_offset st in
  {| top_x := top_x st ++ x_coords;
     top_y := top_y st ++ y_coords;
     top_z := top_z st ++ z_coords;
     top_i := top_i st ++ [vertex_offset + 0];
     top_j := top_j st ++ [vertex_offset + 1];
     top_k := top_k st ++ [vertex_offset + 2];
     top_vertex_offset := vertex_offset + 3 |}%Z.

Section Top.

(** [shapely.ops.triangulate], which is not code of this repository: it
    returns the triangles as Polygons, or raises. *)
Variable triangulate : Polygon -> result (list Polygon).

(** The body of [for poly in polys]. *)
Definition top_poly (z_top : num) (st : top_state) (poly : Polygon)
  : result top_state :=
  triangles <- triangulate poly ;;
  Ok (fold_left (top_triangle z_top) triangles st).

Definition polygon_to_3d_top (geometry : geometry) (z_top : num)
  : result fragment :=
  let polys := polys_of geometry in
  st <- for_each (top_poly z_top) polys top_init ;;
  Ok {| fx := top_x st; fy := top_y st; fz := top_z st;
        fi := top_i st; fj := top_j st; fk := top_k st |}.

End Top.

(** ** [polygon_side_walls] *)

Record wall_state : Set := mkWall {
  wall_x : list float;
  wall_y : list float;
  wall_z : list num;
  wall_i : list Z;
  wall_j : list Z;
  wall_k : list Z;
  wall_vertex_offset : Z
}.

Definition wall_init : wall_state := mkWall [] [] [] [] [] [] 0.

(** [if len(boundary) > 1 and boundary[0] == boundary[-1]:
       boundary = boundary[:-1]] *)
Definition strip_closing (boundary : list coord) : list coord :=
  match boundary with
  | c0 :: _ :: _ =>
      if coord_eqb c0 (last boundary c0) then removelast boundary else boundary
  | _ => boundary
  end.

(** The second half of the body of [for idx in range(n)]: the four vertices
    and the two triangles of one edge. *)
Definition emit_quad (z_top : num) (st : wall_state) (x1 y1 x2 y2 : float)
  : wall_state :=
  let top1 := (x1, y1, z_top) in
  let top2 := (x2, y2, z_top) in
  let bot1 := (x1, y1, Int 0) in
  let bot2 := (x2, y2, Int 0) in
  let vertex_offset := wall_vertex_offset st in
  {| wall_x := wall_x st ++ [fst (fst top1); fst (fst top2); fst (fst bot1); fst (fst bot2)];
     wall_y := wall_y st ++ [snd (fst top1); snd (fst top2); snd (fst bot1); snd (fst bot2)];
     wall_z := wall_z st ++ [snd top1; snd top2; snd bot1; snd bot2];
     wall_i := (wall_i st ++ [vertex_offset + 0]) ++ [vertex_offset + 1];
     wall_j := (wall_j st ++ [vertex_offset + 1]) ++ [vertex_offset + 3];
     wall_k := (wall_k st ++ [vertex_offset + 2]) ++ [vertex_offset + 2];
     wall_vertex_offset := vertex_offset + 4 |}%Z.

(** The body of [for idx in range(n)]. *)
Definition wall_edge (z_top : num) (boundary : list coord) (n : nat)
  (st : wall_state) (idx : nat) : result wall_state :=
  c1 <- getitem boundary idx ;;
  ' (x1, y1) <- unpack2 c1 ;;
  c2 <- getitem boundary ((idx + 1) mod n) ;;
  ' (x2, y2) <- unpack2 c2 ;;
  Ok (emit_quad z_top st x1 y1 x2 y2).

(** The body of [for poly in polys]. *)
Definition wall_poly (z_top : num) (st : wall_state) (poly : Polygon)
  : result wall_state :=
  let boundary := strip_closing (exterior poly) in
  let n := length boundary in
  for_each (wall_edge z_top boundary n) (seq 0 n) st.

Definition polygon_side_walls (geometry : geometry) (z_top : num)
  : result fragment :=
  let polys := polys_of geometry in
  st <- for_each (wall_poly z_top) polys wall_init ;;
  Ok {| fx := wall_x st; fy := wall_y st; fz := wall_z st;
        fi := wall_i st; fj := wall_j st; fk := wall_k st |}.

(** ** Vocabulary of the properties *)

(** The boundary the edge walk runs over. *)
Definition boundary_of (p : Polygon) : list coord := strip_closing (exterior p).

(** Total number of boundary vertices walked, over the constituents. *)
Definition boundary_total (g : geometry) : nat :=
  list_sum (map (fun p => length (boundary_of p)) (polys_of g)).

Definition is_xy (c : coord) : bool :=
  match c with XY _ _ => true | XYZ _ _ _ => false end.

(** The 2D polygons of the data model: every boundary point is a pair. *)
Definition planar (p : Polygon) : bool := forallb is_xy (boundary_of p).

Definition planar_geometry (g : geometry) : bool := forallb planar (polys_of g).

(** Number of different points of a boundary, compared as the source
    compares points. *)
Fixpoint distinct (l : list coord) : list coord :=
  match l with
  | [] => []
  | c :: l' => if existsb (coord_eqb c) l' then distinct l' else c :: distinct l'
  end.

Definition distinct_points (l : list coord) : nat := length (distinct l).

Fixpoint no_repeat (l : list coord) : bool :=
  match l with
  | [] => true
  | c :: l' => negb (existsb (coord_eqb c) l') && no_repeat l'
  end.

Definition distinct_total (g : geometry) : nat :=
  list_sum (map (fun p => distinct_points (boundary_of p)) (polys_of g)).

Definition origin : coord := XY 0 0.

(** Edge [idx] of a boundary: from vertex [idx] to vertex [(idx + 1) mod n]. *)
Definition edge_at (boundary : list coord) (idx : nat) : coord * coord :=
  (nth idx boundary origin, nth ((idx + 1) mod length boundary) boundary origin).

Definition ring_edges (boundary : list coord) : list (coord * coord) :=
  map (edge_at boundary) (seq 0 (length boundary)).

(** The edges of all constituents, in the order they are walked. *)
Definition all_edges (g : geometry) : list (coord * coord) :=
  flat_map (fun p => ring_edges (boundary_of p)) (polys_of g).

Definition emit_edge (z_top : num) (st : wall_state) (e : coord * coord)
  : wall_state :=
  emit_quad z_top st (coord_x (fst e)) (coord_y (fst e))
                     (coord_x (snd e)) (coord_y (snd e)).

(** The blocks one edge contributes to the coordinate lists, and edge
    number [m] of a fragment to the index lists. *)
Definition quad_x (e : coord * coord) : list float :=
  [coord_x (fst e); coord_x (snd e); coord_x (fst e); coord_x (snd e)].

Definition quad_y (e : coord * coord) : list float :=
  [coord_y (fst e); coord_y (snd e); coord_y (fst e); coord_y (snd e)].

Definition quad_z (z_top : num) (e : coord * coord) : list num :=
  [z_top; z_top; Int 0; Int 0].

Definition quad_i (m : nat) : list Z := [4 * Z.of_nat m; 4 * Z.of_nat m + 1]%Z.
Definition quad_j (m : nat) : list Z := [4 * Z.of_nat m + 1; 4 * Z.of_nat m + 3]%Z.
Definition quad_k (m : nat) : list Z := [4 * Z.of_nat m + 2; 4 * Z.of_nat m + 2]%Z.

(** The blocks one triangle contributes to the lists of the top surface. *)
Definition tri_x (t : Polygon) : list float := map coord_x (firstn 3 (exterior t)).
Definition tri_y (t : Polygon) : list float := map coord_y (firstn 3 (exterior t)).
Definition tri_z (z_top : num) (t : Polygon) : list num := [z_top; z_top; z_top].
Definition tri_i (m : nat) : Z := (3 * Z.of_nat m)%Z.
Definition tri_j (m : nat) : Z := (3 * Z.of_nat m + 1)%Z.
Definition tri_k (m : nat) : Z := (3 * Z.of_nat m + 2)%Z.

Definition wall_fragment (st : wall_state) : fragment :=
  {| fx := wall_x st; fy := wall_y st; fz := wall_z st;
     fi := wall_i st; fj := wall_j st; fk := wall_k st |}.

Definition walls_of_edges (z_top : num) (es : list (coord * coord)) : fragment :=
  wall_fragment (fold_left (emit_edge z_top) es wall_init).

Definition top_fragment (st : top_state) : fragment :=
  {| fx := top_x st; fy := top_y st; fz := top_z st;
     fi := top_i st; fj := top_j st; fk := top_k st |}.

Definition top_of_triangles (z_top : num) (ts : list Polygon) : fragment :=
  top_fragment (fold_left (top_triangle z_top) ts top_init).

(** All triangles of the constituents, in order; the first exception of
    the triangulation, if any. *)
Fixpoint triangles_of (triangulate : Polygon -> result (list Polygon))
  (polys : list Polygon) : result (list Polygon) :=
  match polys with
  | [] => Ok []
  | p :: ps =>
      ts <- triangulate p ;;
      rest <- triangles_of triangulate ps ;;
      Ok (ts ++ rest)
  end.

(** What shapely's triangulation returns: closed rings, so at least three
    coordinates for each triangle (four, the last repeating the first). *)
Definition closed_triangles (triangulate : Polygon -> result (list Polygon)) : Prop :=
  forall p ts, triangulate p = Ok ts ->
    Forall (fun t => 3 <= length (exterior t)) ts.

Definition nverts (f : fragment) : nat := length (fx f).
Definition ntris (f : fragment) : nat := length (fi f).

Definition index_ok (f : fragment) (v : Z) : Prop :=
  (0 <= v < Z.of_nat (nverts f))%Z.

Record well_formed (f : fragment) : Prop := {
  wf_y : length (fy f) = length (fx f);
  wf_z : length (fz f) = length (fx f);
  wf_j : length (fj f) = length (fi f);
  wf_k : length (fk f) = length (fi f);
  wf_i_range : Forall (index_ok f) (fi f);
  wf_j_range : Forall (index_ok f) (fj f);
  wf_k_range : Forall (index_ok f) (fk f)
}.

(** [g] after [f], the indices of [g] shifted by the vertex count of [f]. *)
Definition frag_app (f g : fragment) : fragment :=
  let shift := Z.add (Z.of_nat (nverts f)) in
  {| fx := fx f ++ fx g; fy := fy f ++ fy g; fz := fz f ++ fz g;
     fi := fi f ++ map shift (fi g);
     fj := fj f ++ map shift (fj g);
     fk := fk f ++ map shift (fk g) |}.

Definition frag_concat (l : list fragment) : fragment :=
  fold_left frag_app l empty_fragment.

(** Triangle [t] of [frag_concat fs] uses only vertices of one fragment of
    [fs]: its three indices lie in the block of vertices of fragment [c]. *)
Definition own_block (fs : list fragment) (t : nat) : Prop :=
  exists c f vi vj vk,
    nth_error fs c = Some f /\
    nth_error (fi (frag_concat fs)) t = Some vi /\
    nth_error (fj (frag_concat fs)) t = Some vj /\
    nth_error (fk (frag_concat fs)) t = Some vk /\
    let base := Z.of_nat (list_sum (map nverts (firstn c fs))) in
    let top := (base + Z.of_nat (nverts f))%Z in
    (base <= vi < top)%Z /\ (base <= vj < top)%Z /\ (base <= vk < top)%Z.

Definition non_finite (z : num) : bool :=
  match z with
  | Float f => PrimFloat.is_nan f || PrimFloat.is_infinity f
  | Int _ => false
  end.

(** ** Concrete inputs *)

(** The unit square of the scenario, as shapely stores it (closed ring). *)
Definition unit_square : Polygon :=
  mkPolygon [XY 0 0; XY 1 0; XY 1 1; XY 0 1; XY 0 0].

Definition far_square : Polygon :=
  mkPolygon [XY 5 5; XY 6 5; XY 6 6; XY 5 6; XY 5 5].

(** A closed ring with only two distinct points. *)
Definition two_point_ring : Polygon :=
  mkPolygon [XY 0 0; XY 1 0; XY 1 0; XY 0 0].

(** A closed ring whose points are collinear. *)
Definition collinear_ring : Polygon :=
  mkPolygon [XY 0 0; XY 1 0; XY 2 0; XY 0 0].

(** Twice the signed area of the triangle [c0 c1 c2]. *)
Definition cross (c0 c1 c2 : coord) : float :=
  ((coord_x c1 - coord_x c0) * (coord_y c2 - coord_y c0)
   - (coord_x c2 - coord_x c0) * (coord_y c1 - coord_y c0))%float.

(** A fan triangulation from the first boundary vertex that leaves out the
    triangles of zero area, each triangle a closed ring of four coordinates:
    a stand-in for [shapely.ops.triangulate] on convex polygons. *)
Fixpoint fan (c0 : coord) (l : list coord) : list Polygon :=
  match l with
  | c1 :: ((c2 :: _) as l') =>
      if PrimFloat.eqb (cross c0 c1 c2) 0
      then fan c0 l'
      else mkPolygon [c0; c1; c2; c0] :: fan c0 l'
  | _ => []
  end.

Definition fan_triangulate (p : Polygon) : result (list Polygon) :=
  match strip_closing (exterior p) with
  | c0 :: l => Ok (fan c0 l)
  | [] => Ok []
  end.

(** A triangulation that raises on a polygon with a z dimension and is
    [fan_triangulate] on the others. *)
Definition planar_fan_triangulate (p : Polygon) : result (list Polygon) :=
  if planar p then fan_triangulate p else Raise GEOSException.

(** ** The row loop of [main] *)

Section Rows.

(** [shapely.ops.triangulate], as above. *)
Variable triangulate : Polygon -> result (list Polygon).

(** A cell of the [median_income] column of the merged frame, [pd.isnull]
    on it, and the height [(cell - min_inc) * scale_factor] computed from it:
    pandas and numpy values and operations, not code of this repository. *)
Variable cell : Type.
Variable isnull : cell -> bool.
Variable height : cell -> num.

(** What the loop reads of a [row]: [row['name']], [row['median_income']]
    and [row['geometry']], which may be [None]. *)
Record Row : Type := mkRow {
  row_name : String.string;
  row_median_income : cell;
  row_geometry : option geometry
}.

(** The hover arguments of a trace: the [hovertemplate] f-string of a top
    trace, given by the three values it formats, or [hoverinfo='skip']. *)
Inductive hover : Type :=
| HoverTemplate (name : String.string) (median_income : cell) (z_top : num)
| HoverSkip.

(** The arguments of a [go.Mesh3d] call; [trace_mesh] holds [x], [y], [z],
    [i], [j], [k]. *)
Record Mesh3d : Type := mkMesh3d {
  trace_mesh : fragment;
  trace_color : String.string;
  trace_flatshading : bool;
  trace_name : String.string;
  trace_hover : hover;
  trace_showscale : bool
}.

Definition solid_color : String.string := "royalblue"%string.

Definition top_trace (row : Row) (z_top : num) (top_mesh : fragment) : Mesh3d :=
  {| trace_mesh := top_mesh;
     trace_color := solid_color;
     trace_flatshading := true;
     trace_name := row_name row;
     trace_hover := HoverTemplate (row_name row) (row_median_income row) z_top;
     trace_showscale := false |}.

Definition wall_trace (row : Row) (wall_mesh : fragment) : Mesh3d :=
  {| trace_mesh := wall_mesh;
     trace_color := solid_color;
     trace_flatshading := true;
     trace_name := String.append (row_name row) " walls"%string;
     trace_hover := HoverSkip;
     trace_showscale := false |}.

(** The body of [for idx, row in gdf.iterrows()]; [fig] is the list of
    traces of the figure, to which [fig.add_trace] appends. *)
Definition draw_row (fig : list Mesh3d) (row : Row) : result (list Mesh3d) :=
  match isnull (row_median_income row), row_geometry row with
  | true, _ => Ok fig
  | false, None => Ok fig
  | false, Some geometry =>
      let z_top := height (row_median_income row) in
      top_mesh <- polygon_to_3d_top triangulate geometry z_top ;;
      wall_mesh <- polygon_side_walls geometry z_top ;;
      let fig := fig ++ [top_trace row z_top top_mesh] in
      let fig := fig ++ [wall_trace row wall_mesh] in
      Ok fig
  end.

(** The loop of [main] over the rows, from the empty figure. *)
Definition draw_rows (rows : list Row) : result (list Mesh3d) :=
  for_each draw_row rows [].

(** The rows the loop does not skip. *)
Definition drawable (row : Row) : bool :=
  negb (isnull (row_median_income row)) &&
  match row_geometry row with Some _ => true | None => false end.

End Rows.

Arguments mkRow {cell} _ _ _.
Arguments row_name {cell} _.
Arguments row_median_income {cell} _.
Arguments row_geometry {cell} _.
Arguments HoverSkip {cell}.
Arguments HoverTemplate {cell} _ _ _.
Arguments trace_mesh {cell} _.
Arguments trace_name {cell} _.
Arguments trace_hover {cell} _.
Arguments trace_color {cell} _.
Arguments trace_flatshading {cell} _.
Arguments trace_showscale {cell} _.
Arguments top_trace {cell} _ _ _.
Arguments wall_trace {cell} _ _.
Arguments drawable {cell} _ _.
Arguments draw_row _ {cell} _ _ _ _.
Arguments draw_rows _ {cell} _ _ _.

(** The height of a cell of a float64 column: [(cell - min_inc) *
    scale_factor] with [scale_factor = 1]. *)
Definition float_height (min_inc : float) (c : float) : num :=
  Float ((c - min_inc) * 1)%float.

(** Four rows: one with a NaN income, one without geometry. *)
Definition sample_rows : list (Row float) :=
  [mkRow "Adams"%string 45000%float (Some (GPolygon unit_square));
   mkRow "Allen"%string nan (Some (GPolygon far_square));
   mkRow "Ashland"%string 50000%float None;
   mkRow "Athens"%string 40000%float (Some (GMultiPolygon [unit_square; far_square]))].

(** A triangle with a z dimension, and the rows above followed by a row
    with it. *)
Definition spatial_triangle : Polygon :=
  mkPolygon [XYZ 0 0 1; XYZ 1 0 1; XYZ 0 1 1; XYZ 0 0 1].

Definition failing_rows : list (Row float) :=
  sample_rows ++ [mkRow "Auglaize"%string 47000%float (Some (GPolygon spatial_triangle))].

(** * Properties *)

Example unit_square_walls :
  polygon_side_walls (GPolygon unit_square) (Float 5) =
  Ok {| fx := [0; 1; 0; 1;  1; 1; 1; 1;  1; 0; 1; 0;  0; 0; 0; 0]%float;
        fy := [0; 0; 0; 0;  0; 1; 0; 1;  1; 1; 1; 1;  1; 0; 1; 0]%float;
        fz := [Float 5; Float 5; Int 0; Int 0; Float 5; Float 5; Int 0; Int 0;
               Float 5; Float 5; Int 0; Int 0; Float 5; Float 5; Int 0; Int 0];
        fi := [0; 1; 4; 5; 8; 9; 12; 13];
        fj := [1; 3; 5; 7; 9; 11; 13; 15];
        fk := [2; 2; 6; 6; 10; 10; 14; 14] |}%Z.
Proof. vm_compute. reflexivity. Qed.

Example unit_square_top :
  polygon_to_3d_top fan_triangulate (GPolygon unit_square) (Float 5) =
  Ok {| fx := [0; 1; 1;  0; 1; 0]%float;
        fy := [0; 0; 1;  0; 1; 1]%float;
        fz := [Float 5; Float 5; Float 5; Float 5; Float 5; Float 5];
        fi := [0; 3]; fj := [1; 4]; fk := [2; 5] |}%Z.
Proof. vm_compute. reflexivity. Qed.

Example collinear_ring_top :
  polygon_to_3d_top fan_triangulate (GPolygon collinear_ring) (Float 5) =
  Ok empty_fragment.
Proof. vm_compute. reflexivity. Qed.

(** A polygon with a z dimension: the unpacking of the first boundary point
    raises. *)
Example spatial_triangle_walls :
  polygon_side_walls
    (GPolygon (mkPolygon [XYZ 0 0 1; XYZ 1 0 1; XYZ 0 1 1; XYZ 0 0 1])) (Float 5) =
  Raise ValueError.
Proof. vm_compute. reflexivity. Qed.

(** An open ring, and a ring of one point, are walked as they are. *)
Example open_ring_boundary :
  boundary_of (mkPolygon [XY 0 0; XY 1 0; XY 1 1; XY 0 1]) =
  [XY 0 0; XY 1 0; XY 1 1; XY 0 1].
Proof. vm_compute. reflexivity. Qed.

Example one_point_walls :
  polygon_side_walls (GPolygon (mkPolygon [XY 2 3])) (Float 5) =
  Ok {| fx := [2; 2; 2; 2]%float; fy := [3; 3; 3; 3]%float;
        fz := [Float 5; Float 5; Int 0; Int 0];
        fi := [0; 1]; fj := [1; 3]; fk := [2; 2] |}%Z.
Proof. vm_compute. reflexivity. Qed.

Example two_point_ring_distinct :
  distinct_points (boundary_of two_point_ring) = 2.
Proof. vm_compute. reflexivity. Qed.

(** ** Lists built block by block *)

Section Blocks.

Context {A B : Type}.
Variable f : A -> list B.
Variable k : nat.
Hypothesis block_length : forall a, length (f a) = k.

Lemma flat_map_blocks_length (l : list A) :
  length (flat_map f l) = k * length l.
Proof.
  induction l as [|a l IH]; simpl.
  - lia.
  - rewrite length_app, block_length, IH. lia.
Qed.

Lemma flat_map_block (l : list A) (e : nat) (a : A) :
  nth_error l e = Some a ->
  firstn k (skipn (k * e) (flat_map f l)) = f a.
Proof.
  revert e. induction l as [|a0 l IH]; intros [|e] He; simpl in He; try discriminate.
  - injection He as ->. rewrite Nat.mul_0_r. simpl.
    rewrite firstn_app, block_length, Nat.sub_diag. simpl.
    rewrite app_nil_r. apply firstn_all2. rewrite block_length. lia.
  - simpl flat_map. rewrite skipn_app, block_length.
    rewrite skipn_all2 by (rewrite block_length; lia). simpl.
    replace (k * S e - k) with (k * e) by lia. now apply IH.
Qed.

Lemma flat_map_nth_error (l : list A) (e r : nat) (a : A) :
  nth_error l e = Some a -> r < k ->
  nth_error (flat_map f l) (k * e + r) = nth_error (f a) r.
Proof.
  revert e. induction l as [|a0 l IH]; intros [|e] He Hr; simpl in He; try discriminate.
  - injection He as ->. rewrite Nat.mul_0_r. simpl.
    apply nth_error_app1. rewrite block_length. exact Hr.
  - simpl flat_map. rewrite nth_error_app2 by (rewrite block_length; lia).
    rewrite block_length. replace (k * S e + r - k) with (k * e + r) by lia.
    now apply IH.
Qed.

End Blocks.

Lemma length_flat_map_sum (A B : Type) (h : A -> list B) (l : list A) :
  length (flat_map h l) = list_sum (map (fun a => length (h a)) l).
Proof.
  induction l as [|a l IH]; simpl; [reflexivity|].
  now rewrite length_app, IH.
Qed.

Lemma flat_map_singleton (A B : Type) (h : A -> B) (l : list A) :
  flat_map (fun a => [h a]) l = map h l.
Proof. induction l as [|a l IH]; simpl; [reflexivity | now rewrite IH]. Qed.

(** ** The loops of [for_each] *)

(** A loop whose body first computes a list of items, which may raise, and
    then folds a total step over them. *)
Lemma for_each_fold_Ok (A B S : Type) (items : A -> list B) (step : S -> B -> S)
  (body : S -> A -> result S) (l : list A) :
  (forall st a, In a l -> body st a = Ok (fold_left step (items a) st)) ->
  forall st, for_each body l st = Ok (fold_left step (flat_map items l) st).
Proof.
  induction l as [|a l IH]; intros Hb st; simpl; [reflexivity|].
  rewrite Hb by now left. simpl. rewrite fold_left_app.
  apply IH. intros st' a' Ha'. apply Hb. now right.
Qed.

Lemma for_each_Ok_inv (A S : Type) (body : S -> A -> result S) (l : list A) (st st' : S) :
  for_each body l st = Ok st' ->
  forall a, In a l -> exists s s', body s a = Ok s'.
Proof.
  revert st. induction l as [|a0 l IH]; intros st H a Ha; [contradiction|].
  simpl in H. destruct (body st a0) as [s1|e] eqn:E; simpl in H; [|discriminate].
  destruct Ha as [<-|Ha]; [now exists st, s1 | now apply (IH s1)].
Qed.

(** ** One edge, one ring *)

Lemma wall_edge_Ok z_top boundary n st idx x1 y1 x2 y2 :
  nth_error boundary idx = Some (XY x1 y1) ->
  nth_error boundary ((idx + 1) mod n) = Some (XY x2 y2) ->
  wall_edge z_top boundary n st idx = Ok (emit_quad z_top st x1 y1 x2 y2).
Proof.
  intros H1 H2. unfold wall_edge, getitem. rewrite H1. simpl. rewrite H2. reflexivity.
Qed.

Lemma wall_edge_inv z_top boundary n st idx st' :
  wall_edge z_top boundary n st idx = Ok st' ->
  exists x1 y1 x2 y2,
    nth_error boundary idx = Some (XY x1 y1) /\
    nth_error boundary ((idx + 1) mod n) = Some (XY x2 y2) /\
    st' = emit_quad z_top st x1 y1 x2 y2.
Proof.
  unfold wall_edge, getitem.
  destruct (nth_error boundary idx) as [[x1 y1|? ? ?]|]; simpl; try discriminate.
  destruct (nth_error boundary ((idx + 1) mod n)) as [[x2 y2|? ? ?]|]; simpl;
    try discriminate.
  intros [= <-]. now exists x1, y1, x2, y2.
Qed.

Lemma is_xy_nth boundary idx :
  forallb is_xy boundary = true -> idx < length boundary ->
  exists x y, nth_error boundary idx = Some (XY x y) /\ nth idx boundary origin = XY x y.
Proof.
  intros Hall Hidx.
  destruct (nth_error boundary idx) as [c|] eqn:E.
  - assert (Hc : is_xy c = true).
    { rewrite forallb_forall in Hall. apply Hall. eapply nth_error_In; eauto. }
    destruct c as [x y|]; [|discriminate].
    exists x, y. split; [reflexivity|]. now apply nth_error_nth.
  - apply nth_error_None in E. lia.
Qed.

Lemma wall_edge_planar z_top boundary st idx :
  forallb is_xy boundary = true -> idx < length boundary ->
  wall_edge z_top boundary (length boundary) st idx =
  Ok (fold_left (emit_edge z_top) [edge_at boundary idx] st).
Proof.
  intros Hall Hidx.
  assert (Hnext : (idx + 1) mod length boundary < length boundary)
    by (apply Nat.mod_upper_bound; lia).
  destruct (is_xy_nth _ _ Hall Hidx) as (x1 & y1 & E1 & N1).
  destruct (is_xy_nth _ _ Hall Hnext) as (x2 & y2 & E2 & N2).
  rewrite (wall_edge_Ok z_top _ _ st _ _ _ _ _ E1 E2).
  simpl. unfold emit_edge, edge_at. simpl. now rewrite N1, N2.
Qed.

Lemma wall_poly_planar z_top st p :
  planar p = true ->
  wall_poly z_top st p =
  Ok (fold_left (emit_edge z_top) (ring_edges (boundary_of p)) st).
Proof.
  intros Hp. unfold wall_poly. fold (boundary_of p).
  rewrite (for_each_fold_Ok _ _ _ (fun idx => [edge_at (boundary_of p) idx])
             (emit_edge z_top)).
  - unfold ring_edges. now rewrite flat_map_singleton.
  - intros s idx Hin. apply in_seq in Hin.
    apply wall_edge_planar; [exact Hp | lia].
Qed.

Lemma wall_poly_Ok_planar z_top st p st' :
  wall_poly z_top st p = Ok st' -> planar p = true.
Proof.
  unfold wall_poly. fold (boundary_of p). intros H.
  unfold planar. apply forallb_forall. intros c Hc.
  destruct (In_nth_error _ _ Hc) as [idx Hidx].
  assert (Hlt : idx < length (boundary_of p)).
  { apply nth_error_Some. now rewrite Hidx. }
  destruct (for_each_Ok_inv _ _ _ _ _ _ H idx) as (s & s' & Hs).
  { apply in_seq. lia. }
  apply wall_edge_inv in Hs. destruct Hs as (x1 & y1 & _ & _ & E & _).
  rewrite Hidx in E. now injection E as ->.
Qed.

(** ** The whole wall loop *)

Lemma polygon_side_walls_planar g z_top :
  planar_geometry g = true ->
  polygon_side_walls g z_top = Ok (walls_of_edges z_top (all_edges g)).
Proof.
  intros Hg. unfold polygon_side_walls.
  rewrite (for_each_fold_Ok _ _ _ (fun p => ring_edges (boundary_of p))
             (emit_edge z_top)).
  - reflexivity.
  - intros st p Hp. apply wall_poly_planar.
    unfold planar_geometry in Hg. rewrite forallb_forall in Hg. now apply Hg.
Qed.

Lemma polygon_side_walls_Ok_planar g z_top f :
  polygon_side_walls g z_top = Ok f -> planar_geometry g = true.
Proof.
  unfold polygon_side_walls. intros H.
  destruct (for_each (wall_poly z_top) (polys_of g) wall_init) as [st|e] eqn:E;
    [|discriminate].
  apply forallb_forall. intros p Hp.
  destruct (for_each_Ok_inv _ _ _ _ _ _ E p Hp) as (s & s' & Hs).
  eapply wall_poly_Ok_planar; eauto.
Qed.

Lemma polygon_side_walls_Ok g z_top f :
  polygon_side_walls g z_top = Ok f ->
  planar_geometry g = true /\ f = walls_of_edges z_top (all_edges g).
Proof.
  intros H. pose proof (polygon_side_walls_Ok_planar _ _ _ H) as Hg.
  split; [exact Hg|].
  rewrite (polygon_side_walls_planar _ z_top Hg) in H. now injection H.
Qed.

Lemma map_shift_0 (l : list Z) : map (Z.add 0) l = l.
Proof. induction l as [|v l IH]; simpl; [reflexivity | now rewrite IH]. Qed.

Lemma app_tail2 (l : list Z) (a b c d : Z) :
  a = c -> b = d -> l ++ [a; b] = l ++ [c; d].
Proof. now intros -> ->. Qed.

Lemma app_tail1 (l : list Z) (a c : Z) : a = c -> l ++ [a] = l ++ [c].
Proof. now intros ->. Qed.

Lemma emit_edges_state z_top es st :
  fold_left (emit_edge z_top) es st =
  {| wall_x := wall_x st ++ flat_map quad_x es;
     wall_y := wall_y st ++ flat_map quad_y es;
     wall_z := wall_z st ++ flat_map (quad_z z_top) es;
     wall_i := wall_i st ++
               map (Z.add (wall_vertex_offset st)) (flat_map quad_i (seq 0 (length es)));
     wall_j := wall_j st ++
               map (Z.add (wall_vertex_offset st)) (flat_map quad_j (seq 0 (length es)));
     wall_k := wall_k st ++
               map (Z.add (wall_vertex_offset st)) (flat_map quad_k (seq 0 (length es)));
     wall_vertex_offset := wall_vertex_offset st + 4 * Z.of_nat (length es) |}%Z.
Proof.
  induction es as [|e es IH] using rev_ind.
  - destruct st; simpl. rewrite !app_nil_r. f_equal. lia.
  - rewrite fold_left_app, IH. cbn [fold_left]. unfold emit_edge, emit_quad.
    cbn [wall_x wall_y wall_z wall_i wall_j wall_k wall_vertex_offset fst snd].
    rewrite length_app. cbn [length]. rewrite Nat.add_1_r, seq_S.
    rewrite !flat_map_app, !map_app.
    unfold quad_i, quad_j, quad_k. cbn [flat_map map app Nat.add].
    rewrite <- !app_assoc. cbn [app].
    f_equal; try (rewrite !app_assoc; apply app_tail2; lia).
    lia.
Qed.

Lemma walls_of_edges_fields z_top es :
  walls_of_edges z_top es =
  {| fx := flat_map quad_x es;
     fy := flat_map quad_y es;
     fz := flat_map (quad_z z_top) es;
     fi := flat_map quad_i (seq 0 (length es));
     fj := flat_map quad_j (seq 0 (length es));
     fk := flat_map quad_k (seq 0 (length es)) |}.
Proof.
  unfold walls_of_edges. rewrite emit_edges_state. unfold wall_fragment. simpl.
  now rewrite !map_shift_0.
Qed.

(** ** Edges and their positions *)

Lemma ring_edges_length boundary : length (ring_edges boundary) = length boundary.
Proof. unfold ring_edges. now rewrite length_map, length_seq. Qed.

Lemma all_edges_length g : length (all_edges g) = boundary_total g.
Proof.
  unfold all_edges, boundary_total. rewrite length_flat_map_sum.
  f_equal. apply map_ext. intros p. apply ring_edges_length.
Qed.

Lemma nth_error_seq0 (len e : nat) : e < len -> nth_error (seq 0 len) e = Some e.
Proof.
  intros H. rewrite nth_error_seq.
  destruct (Nat.ltb_spec e len); [reflexivity | lia].
Qed.

Lemma ring_edges_nth boundary idx :
  idx < length boundary ->
  nth_error (ring_edges boundary) idx = Some (edge_at boundary idx).
Proof.
  intros H. unfold ring_edges. apply map_nth_error. now apply nth_error_seq0.
Qed.

(** Edge [idx] of constituent [p] is edge number [edges before p + idx] of
    the whole walk. *)
Lemma all_edges_nth g pre p post idx :
  polys_of g = pre ++ p :: post ->
  idx < length (boundary_of p) ->
  nth_error (all_edges g)
    (list_sum (map (fun q => length (boundary_of q)) pre) + idx) =
  Some (edge_at (boundary_of p) idx).
Proof.
  intros Hg Hidx. unfold all_edges. rewrite Hg, flat_map_app. simpl.
  assert (Hpre : length (flat_map (fun q => ring_edges (boundary_of q)) pre) =
                 list_sum (map (fun q => length (boundary_of q)) pre)).
  { rewrite length_flat_map_sum. f_equal. apply map_ext. intros q.
    apply ring_edges_length. }
  rewrite nth_error_app2 by lia. rewrite Hpre.
  replace (_ + idx - _) with idx by lia.
  rewrite nth_error_app1 by (rewrite ring_edges_length; exact Hidx).
  now apply ring_edges_nth.
Qed.

Lemma walls_of_edges_counts z_top es :
  let f := walls_of_edges z_top es in
  length (fx f) = 4 * length es /\ length (fy f) = 4 * length es /\
  length (fz f) = 4 * length es /\
  length (fi f) = 2 * length es /\ length (fj f) = 2 * length es /\
  length (fk f) = 2 * length es.
Proof.
  rewrite walls_of_edges_fields. simpl.
  rewrite (flat_map_blocks_length quad_x 4 (fun _ => eq_refl)),
    (flat_map_blocks_length quad_y 4 (fun _ => eq_refl)),
    (flat_map_blocks_length (quad_z z_top) 4 (fun _ => eq_refl)),
    (flat_map_blocks_length quad_i 2 (fun _ => eq_refl)),
    (flat_map_blocks_length quad_j 2 (fun _ => eq_refl)),
    (flat_map_blocks_length quad_k 2 (fun _ => eq_refl)), length_seq.
  repeat split.
Qed.

Lemma no_repeat_distinct l : no_repeat l = true -> distinct l = l.
Proof.
  induction l as [|c l IH]; simpl; [reflexivity|].
  intros H. apply andb_prop in H. destruct H as [Hc Hl].
  apply negb_true_iff in Hc. rewrite Hc. now rewrite IH.
Qed.

(** C1: on a geometry of 2D polygons, [polygon_side_walls] returns a
    fragment with 4 vertices and 2 triangles for each boundary vertex left
    after the closing duplicate is stripped: [4 * n] and [2 * n] for one
    polygon of [n] boundary vertices, and [4 * sum n_i], [2 * sum n_i] for a
    MultiPolygon.  When the stripped boundaries repeat no point, [n] is
    the number of distinct vertices. *)
Theorem side_walls_counts g z_top :
  planar_geometry g = true ->
  exists f,
    polygon_side_walls g z_top = Ok f /\
    length (fx f) = 4 * boundary_total g /\
    length (fy f) = 4 * boundary_total g /\
    length (fz f) = 4 * boundary_total g /\
    length (fi f) = 2 * boundary_total g /\
    length (fj f) = 2 * boundary_total g /\
    length (fk f) = 2 * boundary_total g /\
    (forall p, g = GPolygon p -> boundary_total g = length (boundary_of p)) /\
    (forallb (fun p => no_repeat (boundary_of p)) (polys_of g) = true ->
     boundary_total g = distinct_total g).
Proof.
  intros Hg. exists (walls_of_edges z_top (all_edges g)).
  split; [now apply polygon_side_walls_planar|].
  pose proof (walls_of_edges_counts z_top (all_edges g)) as H.
  rewrite all_edges_length in H. simpl in H.
  destruct H as (Hx & Hy & Hz & Hi & Hj & Hk).
  repeat (split; [assumption|]). split.
  - intros p ->. unfold boundary_total. simpl. lia.
  - intros Hd. unfold boundary_total, distinct_total. f_equal.
    apply map_ext_in. intros p Hp. rewrite forallb_forall in Hd.
    unfold distinct_points. now rewrite no_repeat_distinct by now apply Hd.
Qed.

Lemma side_walls_counts_witness :
  exists f,
    polygon_side_walls (GMultiPolygon [unit_square; far_square]) (Float 5) = Ok f /\
    length (fx f) = 32 /\ length (fi f) = 16 /\
    distinct_total (GMultiPolygon [unit_square; far_square]) = 8.
Proof.
  destruct (side_walls_counts (GMultiPolygon [unit_square; far_square]) (Float 5))
    as (f & Hf & Hx & _ & _ & Hi & _ & _ & _ & Hd).
  - vm_compute. reflexivity.
  - exists f. split; [exact Hf|]. split; [exact Hx|]. split; [exact Hi|].
    rewrite <- Hd; vm_compute; reflexivity.
Defined.

(** C2: in the fragment [polygon_side_walls] returns, the edge from boundary
    vertex [idx = (x1, y1)] to vertex [(idx + 1) mod n = (x2, y2)] of a
    constituent, which is edge number [e] of the whole walk, owns the four
    vertices at positions [4 * e ..]: top1, top2, bot1, bot2 in that order,
    and the two triangles at positions [2 * e ..]: [(offset, offset + 1,
    offset + 2)] and [(offset + 1, offset + 3, offset + 2)] with
    [offset = 4 * e], four more for each edge walked before. *)
Theorem side_walls_edge_layout g z_top f pre p post idx x1 y1 x2 y2 :
  polygon_side_walls g z_top = Ok f ->
  polys_of g = pre ++ p :: post ->
  nth_error (boundary_of p) idx = Some (XY x1 y1) ->
  nth_error (boundary_of p) ((idx + 1) mod length (boundary_of p)) = Some (XY x2 y2) ->
  let e := list_sum (map (fun q => length (boundary_of q)) pre) + idx in
  let offset := (4 * Z.of_nat e)%Z in
  firstn 4 (skipn (4 * e) (fx f)) = [x1; x2; x1; x2] /\
  firstn 4 (skipn (4 * e) (fy f)) = [y1; y2; y1; y2] /\
  firstn 4 (skipn (4 * e) (fz f)) = [z_top; z_top; Int 0; Int 0] /\
  firstn 2 (skipn (2 * e) (fi f)) = [offset + 0; offset + 1]%Z /\
  firstn 2 (skipn (2 * e) (fj f)) = [offset + 1; offset + 3]%Z /\
  firstn 2 (skipn (2 * e) (fk f)) = [offset + 2; offset + 2]%Z.
Proof.
  intros Hf Hg H1 H2 e offset.
  apply polygon_side_walls_Ok in Hf. destruct Hf as [_ ->].
  assert (Hidx : idx < length (boundary_of p)).
  { apply nth_error_Some. now rewrite H1. }
  pose proof (all_edges_nth g pre p post idx Hg Hidx) as He. fold e in He.
  assert (Hlen : e < length (all_edges g)).
  { apply nth_error_Some. now rewrite He. }
  pose proof (nth_error_seq0 _ _ Hlen) as Hs.
  rewrite walls_of_edges_fields. cbn [fx fy fz fi fj fk].
  rewrite (flat_map_block quad_x 4 (fun _ => eq_refl) _ _ _ He),
    (flat_map_block quad_y 4 (fun _ => eq_refl) _ _ _ He),
    (flat_map_block (quad_z z_top) 4 (fun _ => eq_refl) _ _ _ He),
    (flat_map_block quad_i 2 (fun _ => eq_refl) _ _ _ Hs),
    (flat_map_block quad_j 2 (fun _ => eq_refl) _ _ _ Hs),
    (flat_map_block quad_k 2 (fun _ => eq_refl) _ _ _ Hs).
  unfold quad_x, quad_y, quad_z, quad_i, quad_j, quad_k, edge_at. simpl fst. simpl snd.
  rewrite (nth_error_nth _ _ origin H1), (nth_error_nth _ _ origin H2).
  simpl coord_x. simpl coord_y. subst offset.
  repeat split; try reflexivity; f_equal; try lia; f_equal; lia.
Qed.

Lemma side_walls_edge_layout_witness :
  exists f,
    polygon_side_walls (GMultiPolygon [unit_square; far_square]) (Float 5) = Ok f /\
    firstn 4 (skipn 28 (fx f)) = [5; 5; 5; 5]%float /\
    firstn 4 (skipn 28 (fy f)) = [6; 5; 6; 5]%float /\
    firstn 4 (skipn 28 (fz f)) = [Float 5; Float 5; Int 0; Int 0] /\
    firstn 2 (skipn 14 (fi f)) = [28; 29]%Z /\
    firstn 2 (skipn 14 (fj f)) = [29; 31]%Z /\
    firstn 2 (skipn 14 (fk f)) = [30; 30]%Z.
Proof.
  eexists. split; [vm_compute; reflexivity|].
  apply (side_walls_edge_layout (GMultiPolygon [unit_square; far_square]) (Float 5) _
           [unit_square] far_square [] 3 5 6 5 5);
    vm_compute; reflexivity.
Defined.

(** ** Closure of the skirt *)

Lemma prev_next (n idx : nat) :
  idx < n -> ((idx + n - 1) mod n + 1) mod n = idx.
Proof.
  intros H. destruct idx as [|i].
  - replace (0 + n - 1) with (n - 1) by lia.
    rewrite (Nat.mod_small (n - 1) n) by lia.
    replace (n - 1 + 1) with n by lia. apply Nat.Div0.mod_same.
  - replace (S i + n - 1) with (i + 1 * n) by lia.
    rewrite Nat.Div0.mod_add, (Nat.mod_small i n) by lia.
    rewrite Nat.mod_small by lia. lia.
Qed.

Lemma planar_geometry_In g p :
  planar_geometry g = true -> In p (polys_of g) -> planar p = true.
Proof.
  unfold planar_geometry. rewrite forallb_forall. auto.
Qed.

(** C4: in the fragment [polygon_side_walls] returns, for a constituent
    with a boundary of [n] vertices and every [idx < n], top1 and bot1 of
    edge [idx] have the (x, y) of boundary vertex [idx], and so have top2 and
    bot2 of edge [(idx - 1) mod n]: consecutive edges meet, and edge [n - 1]
    comes back to vertex 0. *)
Theorem side_walls_closure g z_top f pre p post idx :
  polygon_side_walls g z_top = Ok f ->
  polys_of g = pre ++ p :: post ->
  let n := length (boundary_of p) in
  idx < n ->
  let base := 4 * list_sum (map (fun q => length (boundary_of q)) pre) in
  let prev := (idx + n - 1) mod n in
  exists x y,
    nth_error (boundary_of p) idx = Some (XY x y) /\
    (* top1 and bot1 of edge idx *)
    nth_error (fx f) (base + 4 * idx) = Some x /\
    nth_error (fy f) (base + 4 * idx) = Some y /\
    nth_error (fx f) (base + 4 * idx + 2) = Some x /\
    nth_error (fy f) (base + 4 * idx + 2) = Some y /\
    (* top2 and bot2 of edge prev *)
    nth_error (fx f) (base + 4 * prev + 1) = Some x /\
    nth_error (fy f) (base + 4 * prev + 1) = Some y /\
    nth_error (fx f) (base + 4 * prev + 3) = Some x /\
    nth_error (fy f) (base + 4 * prev + 3) = Some y.
Proof.
  intros Hf Hg n Hidx base prev.
  apply polygon_side_walls_Ok in Hf. destruct Hf as [Hplanar ->].
  assert (Hp : planar p = true).
  { apply (planar_geometry_In g); [exact Hplanar|]. rewrite Hg.
    apply in_or_app. right. now left. }
  destruct (is_xy_nth _ _ Hp Hidx) as (x & y & Hnth & Hn).
  assert (Hprev : prev < n) by (apply Nat.mod_upper_bound; lia).
  pose proof (all_edges_nth g pre p post idx Hg Hidx) as He.
  pose proof (all_edges_nth g pre p post prev Hg Hprev) as Hq.
  assert (Hat : edge_at (boundary_of p) prev =
                (nth prev (boundary_of p) origin, XY x y)).
  { unfold edge_at. fold n. unfold prev at 2. now rewrite prev_next, Hn. }
  exists x, y. split; [exact Hnth|].
  rewrite walls_of_edges_fields. cbn [fx fy]. subst base.
  set (eb := list_sum (map (fun q => length (boundary_of q)) pre)) in *.
  replace (4 * eb + 4 * idx) with (4 * (eb + idx) + 0) by lia.
  replace (4 * (eb + idx) + 0 + 2) with (4 * (eb + idx) + 2) by lia.
  replace (4 * eb + 4 * prev + 1) with (4 * (eb + prev) + 1) by lia.
  replace (4 * eb + 4 * prev + 3) with (4 * (eb + prev) + 3) by lia.
  rewrite !(flat_map_nth_error quad_x 4 (fun _ => eq_refl) _ _ _ _ He) by lia.
  rewrite !(flat_map_nth_error quad_y 4 (fun _ => eq_refl) _ _ _ _ He) by lia.
  rewrite !(flat_map_nth_error quad_x 4 (fun _ => eq_refl) _ _ _ _ Hq) by lia.
  rewrite !(flat_map_nth_error quad_y 4 (fun _ => eq_refl) _ _ _ _ Hq) by lia.
  rewrite Hat. unfold quad_x, quad_y, edge_at. cbn [fst snd]. rewrite Hn.
  repeat split.
Qed.

Lemma side_walls_closure_witness :
  exists f x y,
    polygon_side_walls (GPolygon unit_square) (Float 5) = Ok f /\
    nth_error (boundary_of unit_square) 0 = Some (XY x y) /\
    nth_error (fx f) 0 = Some x /\ nth_error (fy f) 0 = Some y /\
    nth_error (fx f) 13 = Some x /\ nth_error (fy f) 13 = Some y /\
    nth_error (fx f) 2 = Some x /\ nth_error (fy f) 2 = Some y /\
    nth_error (fx f) 15 = Some x /\ nth_error (fy f) 15 = Some y.
Proof.
  destruct (side_walls_closure (GPolygon unit_square) (Float 5) _ [] unit_square [] 0
              unit_square_walls eq_refl)
    as (x & y & Hb & H1 & H2 & H3 & H4 & H5 & H6 & H7 & H8).
  - vm_compute. lia.
  - eexists. exists x, y. split; [exact unit_square_walls|].
    repeat (split; [assumption|]). assumption.
Defined.

(** ** The closing duplicate *)

Lemma strip_closing_closed c0 mid cl :
  coord_eqb c0 cl = true -> strip_closing (c0 :: mid ++ [cl]) = c0 :: mid.
Proof.
  intros H. unfold strip_closing.
  change (c0 :: mid ++ [cl]) with ((c0 :: mid) ++ [cl]).
  rewrite last_last, removelast_last, H.
  destruct mid; reflexivity.
Qed.

Lemma map_nth_seq (b : list coord) :
  map (fun idx => nth idx b origin) (seq 0 (length b)) = b.
Proof.
  induction b as [|a b IH] using rev_ind; [reflexivity|].
  rewrite length_app. simpl length. rewrite Nat.add_1_r, seq_S, map_app. simpl.
  rewrite nth_middle. f_equal.
  rewrite <- IH at 2. apply map_ext_in. intros i Hi. apply in_seq in Hi.
  apply app_nth1. lia.
Qed.

Lemma ring_edges_starts boundary : map fst (ring_edges boundary) = boundary.
Proof.
  unfold ring_edges. rewrite map_map. unfold edge_at. simpl. apply map_nth_seq.
Qed.

Lemma all_edges_single p : all_edges (GPolygon p) = ring_edges (boundary_of p).
Proof. unfold all_edges. simpl. apply app_nil_r. Qed.

(** C9: when the exterior sequence of a polygon ends with a point equal
    ([==]) to its first point, [polygon_side_walls] walks the sequence
    without that last point: the fragment is the one of the edges of
    [c0 :: mid], each of these vertices is the start of exactly one edge, in
    order, and there are as many edges as vertices left. *)
Theorem closing_duplicate_stripped p c0 mid cl z_top f :
  exterior p = c0 :: mid ++ [cl] ->
  coord_eqb c0 cl = true ->
  polygon_side_walls (GPolygon p) z_top = Ok f ->
  boundary_of p = c0 :: mid /\
  f = walls_of_edges z_top (ring_edges (c0 :: mid)) /\
  map fst (ring_edges (c0 :: mid)) = c0 :: mid /\
  length (ring_edges (c0 :: mid)) = length (c0 :: mid) /\
  length (fx f) = 4 * length (c0 :: mid) /\
  length (fi f) = 2 * length (c0 :: mid).
Proof.
  intros Hext Heq Hf.
  assert (Hb : boundary_of p = c0 :: mid).
  { unfold boundary_of. rewrite Hext. now apply strip_closing_closed. }
  apply polygon_side_walls_Ok in Hf. destruct Hf as [_ ->].
  rewrite all_edges_single, Hb.
  pose proof (walls_of_edges_counts z_top (ring_edges (c0 :: mid))) as H.
  rewrite ring_edges_length in H. cbv zeta in H.
  destruct H as (Hx & _ & _ & Hi & _).
  repeat split; auto using ring_edges_starts, ring_edges_length.
Qed.

Lemma closing_duplicate_stripped_witness :
  boundary_of unit_square = [XY 0 0; XY 1 0; XY 1 1; XY 0 1] /\
  exists f,
    polygon_side_walls (GPolygon unit_square) (Float 5) = Ok f /\
    length (fx f) = 16 /\ length (fi f) = 8.
Proof.
  destruct (closing_duplicate_stripped unit_square (XY 0 0) [XY 1 0; XY 1 1; XY 0 1]
              (XY 0 0) (Float 5) _ eq_refl eq_refl unit_square_walls)
    as (Hb & _ & _ & _ & Hx & Hi).
  split; [exact Hb|]. eexists. split; [exact unit_square_walls|].
  split; [exact Hx | exact Hi].
Defined.

(** ** No validation of the boundary *)

Example two_point_ring_walls :
  polygon_side_walls (GPolygon two_point_ring) (Float 5) =
  Ok {| fx := [0; 1; 0; 1;  1; 1; 1; 1;  1; 0; 1; 0]%float;
        fy := [0; 0; 0; 0;  0; 0; 0; 0;  0; 0; 0; 0]%float;
        fz := [Float 5; Float 5; Int 0; Int 0; Float 5; Float 5; Int 0; Int 0;
               Float 5; Float 5; Int 0; Int 0];
        fi := [0; 1; 4; 5; 8; 9];
        fj := [1; 3; 5; 7; 9; 11];
        fk := [2; 2; 6; 6; 10; 10] |}%Z.
Proof. vm_compute. reflexivity. Qed.

(** C3, as stated, fails: the closed ring [(0,0), (1,0), (1,0), (0,0)] has
    two distinct points and [polygon_side_walls] returns a fragment for it. *)
Lemma degenerate_ring_not_rejected :
  ~ (forall g z_top,
       (forall p, In p (polys_of g) -> distinct_points (boundary_of p) < 3) ->
       exists e, polygon_side_walls g z_top = Raise e).
Proof.
  intros H.
  destruct (H (GPolygon two_point_ring) (Float 5)) as [e He].
  - intros p [<-|[]]. vm_compute. lia.
  - rewrite two_point_ring_walls in He. discriminate.
Qed.

(** C3, amended: [polygon_side_walls] does not count distinct points.  On
    2D polygons whose boundaries have fewer than 3 distinct points it
    returns, as on any other, the fragment of the edges of the stripped
    boundaries, with 4 vertices and 2 triangles for each boundary entry. *)
Theorem degenerate_boundary_accepted g z_top :
  planar_geometry g = true ->
  (forall p, In p (polys_of g) -> distinct_points (boundary_of p) < 3) ->
  exists f,
    polygon_side_walls g z_top = Ok f /\
    f = walls_of_edges z_top (all_edges g) /\
    length (fx f) = 4 * boundary_total g /\
    length (fi f) = 2 * boundary_total g.
Proof.
  intros Hg _. exists (walls_of_edges z_top (all_edges g)).
  split; [now apply polygon_side_walls_planar|]. split; [reflexivity|].
  pose proof (walls_of_edges_counts z_top (all_edges g)) as H.
  rewrite all_edges_length in H. cbv zeta in H. tauto.
Qed.

Lemma degenerate_boundary_accepted_witness :
  exists f,
    polygon_side_walls (GPolygon two_point_ring) (Float 5) = Ok f /\
    length (fx f) = 12 /\ length (fi f) = 6.
Proof.
  destruct (degenerate_boundary_accepted (GPolygon two_point_ring) (Float 5))
    as (f & Hf & _ & Hx & Hi).
  - vm_compute. reflexivity.
  - intros p [<-|[]]. vm_compute. lia.
  - exists f. split; [exact Hf|]. split; [exact Hx | exact Hi].
Defined.

(** ** The loop of the top surface *)

Section TopLoop.

Variable triangulate : Polygon -> result (list Polygon).

Lemma top_loop z_top polys st :
  for_each (top_poly triangulate z_top) polys st =
  (ts <- triangles_of triangulate polys ;;
   Ok (fold_left (top_triangle z_top) ts st)).
Proof.
  revert st. induction polys as [|p ps IH]; intros st; simpl; [reflexivity|].
  unfold top_poly at 1. destruct (triangulate p) as [ts|e]; simpl; [|reflexivity].
  rewrite IH. destruct (triangles_of triangulate ps) as [rest|e]; simpl;
    [|reflexivity].
  now rewrite fold_left_app.
Qed.

Lemma polygon_to_3d_top_spec g z_top :
  polygon_to_3d_top triangulate g z_top =
  (ts <- triangles_of triangulate (polys_of g) ;;
   Ok (top_of_triangles z_top ts)).
Proof.
  unfold polygon_to_3d_top. rewrite top_loop.
  destruct (triangles_of triangulate (polys_of g)); reflexivity.
Qed.

Lemma polygon_to_3d_top_Ok g z_top f :
  polygon_to_3d_top triangulate g z_top = Ok f ->
  exists ts, triangles_of triangulate (polys_of g) = Ok ts /\
             f = top_of_triangles z_top ts.
Proof.
  rewrite polygon_to_3d_top_spec.
  destruct (triangles_of triangulate (polys_of g)) as [ts|e]; simpl;
    [|discriminate].
  intros [= <-]. now exists ts.
Qed.

Lemma triangles_of_closed polys ts :
  closed_triangles triangulate ->
  triangles_of triangulate polys = Ok ts ->
  Forall (fun t => 3 <= length (exterior t)) ts.
Proof.
  intros Hc. revert ts. induction polys as [|p ps IH]; simpl; intros ts H.
  - injection H as <-. constructor.
  - destruct (triangulate p) as [ts1|e] eqn:E1; simpl in H; [|discriminate].
    destruct (triangles_of triangulate ps) as [rest|e]; simpl in H; [|discriminate].
    injection H as <-. apply Forall_app. split; [now apply (Hc p) | now apply IH].
Qed.

End TopLoop.

Lemma top_triangles_state z_top ts st :
  fold_left (top_triangle z_top) ts st =
  {| top_x := top_x st ++ flat_map tri_x ts;
     top_y := top_y st ++ flat_map tri_y ts;
     top_z := top_z st ++ flat_map (tri_z z_top) ts;
     top_i := top_i st ++ map (Z.add (top_vertex_offset st)) (map tri_i (seq 0 (length ts)));
     top_j := top_j st ++ map (Z.add (top_vertex_offset st)) (map tri_j (seq 0 (length ts)));
     top_k := top_k st ++ map (Z.add (top_vertex_offset st)) (map tri_k (seq 0 (length ts)));
     top_vertex_offset := top_vertex_offset st + 3 * Z.of_nat (length ts) |}%Z.
Proof.
  induction ts as [|t ts IH] using rev_ind.
  - destruct st; simpl. rewrite !app_nil_r. f_equal. lia.
  - rewrite fold_left_app, IH. cbn [fold_left]. unfold top_triangle.
    cbn [top_x top_y top_z top_i top_j top_k top_vertex_offset].
    rewrite length_app. cbn [length]. rewrite Nat.add_1_r, seq_S.
    rewrite !flat_map_app, !map_app.
    unfold tri_i, tri_j, tri_k. cbn [flat_map map app Nat.add].
    rewrite <- !app_assoc, !app_nil_r.
    f_equal; try (rewrite !app_assoc; apply app_tail1; lia).
    lia.
Qed.

Lemma top_of_triangles_fields z_top ts :
  top_of_triangles z_top ts =
  {| fx := flat_map tri_x ts;
     fy := flat_map tri_y ts;
     fz := flat_map (tri_z z_top) ts;
     fi := map tri_i (seq 0 (length ts));
     fj := map tri_j (seq 0 (length ts));
     fk := map tri_k (seq 0 (length ts)) |}.
Proof.
  unfold top_of_triangles. rewrite top_triangles_state. unfold top_fragment. simpl.
  now rewrite !map_shift_0.
Qed.

Lemma tri_z_all z_top ts : Forall (fun z => z = z_top) (flat_map (tri_z z_top) ts).
Proof.
  apply Forall_flat_map, Forall_forall. intros t _.
  unfold tri_z. repeat constructor.
Qed.

Lemma top_of_triangles_counts z_top ts :
  let f := top_of_triangles z_top ts in
  length (fz f) = 3 * length ts /\
  length (fi f) = length ts /\ length (fj f) = length ts /\ length (fk f) = length ts.
Proof.
  rewrite top_of_triangles_fields. cbn [fz fi fj fk].
  rewrite (flat_map_blocks_length (tri_z z_top) 3 (fun _ => eq_refl)).
  rewrite !length_map, length_seq. repeat split.
Qed.

(** C5: every z value of the fragment [polygon_to_3d_top] returns is the
    given [z_top], whatever it is (zero, negative or not a finite number),
    and there are three of them for each triangle. *)
Theorem top_height triangulate g z_top f :
  polygon_to_3d_top triangulate g z_top = Ok f ->
  Forall (fun z => z = z_top) (fz f) /\ length (fz f) = 3 * length (fi f).
Proof.
  intros H. apply polygon_to_3d_top_Ok in H. destruct H as (ts & _ & ->).
  pose proof (top_of_triangles_counts z_top ts) as (Hz & Hi & _).
  split; [|lia].
  rewrite top_of_triangles_fields. apply tri_z_all.
Qed.

Lemma top_height_witness :
  exists f,
    polygon_to_3d_top fan_triangulate (GPolygon unit_square) (Float (-5)) = Ok f /\
    Forall (fun z => z = Float (-5)) (fz f) /\ length (fz f) = 6.
Proof.
  eexists. split; [vm_compute; reflexivity|].
  apply (top_height fan_triangulate (GPolygon unit_square) (Float (-5))).
  vm_compute. reflexivity.
Defined.

(** ** No validation of the triangulation or of the height *)

Lemma top_of_no_triangles z_top : top_of_triangles z_top [] = empty_fragment.
Proof. reflexivity. Qed.

(** C7, as stated, fails: the collinear ring is not empty, its
    triangulation has no triangle, and [polygon_to_3d_top] returns the empty
    fragment. *)
Lemma empty_triangulation_not_rejected :
  ~ (forall triangulate g z_top,
       polys_of g <> [] ->
       (forall p, In p (polys_of g) -> exterior p <> []) ->
       triangles_of triangulate (polys_of g) = Ok [] ->
       exists e, polygon_to_3d_top triangulate g z_top = Raise e).
Proof.
  intros H.
  destruct (H fan_triangulate (GPolygon collinear_ring) (Float 5)) as [e He].
  - discriminate.
  - intros p [<-|[]]. discriminate.
  - vm_compute. reflexivity.
  - rewrite collinear_ring_top in He. discriminate.
Qed.

(** C7, amended: [polygon_to_3d_top] raises exactly when the triangulation
    raises.  When the triangulation returns the triangles [ts], it returns
    a fragment with one index triple and three z values for each triangle
    of [ts], none left out; with no triangle at all it returns the empty
    fragment. *)
Theorem top_never_rejects triangulate g z_top ts :
  triangles_of triangulate (polys_of g) = Ok ts ->
  exists f,
    polygon_to_3d_top triangulate g z_top = Ok f /\
    length (fi f) = length ts /\ length (fj f) = length ts /\
    length (fk f) = length ts /\ length (fz f) = 3 * length ts /\
    (ts = [] -> f = empty_fragment) /\
    (forall e, polygon_to_3d_top triangulate g z_top <> Raise e).
Proof.
  intros H. exists (top_of_triangles z_top ts).
  assert (Hf : polygon_to_3d_top triangulate g z_top = Ok (top_of_triangles z_top ts)).
  { rewrite polygon_to_3d_top_spec, H. reflexivity. }
  pose proof (top_of_triangles_counts z_top ts) as (Hz & Hi & Hj & Hk).
  repeat (split; [assumption|]). split.
  - intros ->. apply top_of_no_triangles.
  - intros e He. rewrite Hf in He. discriminate.
Qed.

Lemma top_never_rejects_witness :
  exists f,
    polygon_to_3d_top fan_triangulate (GPolygon collinear_ring) (Float 5) = Ok f /\
    f = empty_fragment.
Proof.
  destruct (top_never_rejects fan_triangulate (GPolygon collinear_ring) (Float 5) [])
    as (f & Hf & _ & _ & _ & _ & He & _).
  - vm_compute. reflexivity.
  - exists f. split; [exact Hf | now apply He].
Defined.

Example unit_square_walls_infinite :
  polygon_side_walls (GPolygon unit_square) (Float infinity) =
  Ok {| fx := [0; 1; 0; 1;  1; 1; 1; 1;  1; 0; 1; 0;  0; 0; 0; 0]%float;
        fy := [0; 0; 0; 0;  0; 1; 0; 1;  1; 1; 1; 1;  1; 0; 1; 0]%float;
        fz := [Float infinity; Float infinity; Int 0; Int 0;
               Float infinity; Float infinity; Int 0; Int 0;
               Float infinity; Float infinity; Int 0; Int 0;
               Float infinity; Float infinity; Int 0; Int 0];
        fi := [0; 1; 4; 5; 8; 9; 12; 13];
        fj := [1; 3; 5; 7; 9; 11; 13; 15];
        fk := [2; 2; 6; 6; 10; 10; 14; 14] |}%Z.
Proof. vm_compute. reflexivity. Qed.

Example unit_square_top_nan :
  polygon_to_3d_top fan_triangulate (GPolygon unit_square) (Float nan) =
  Ok {| fx := [0; 1; 1;  0; 1; 0]%float;
        fy := [0; 0; 1;  0; 1; 1]%float;
        fz := [Float nan; Float nan; Float nan; Float nan; Float nan; Float nan];
        fi := [0; 3]; fj := [1; 4]; fk := [2; 5] |}%Z.
Proof. vm_compute. reflexivity. Qed.

(** C8, as stated, fails: with an infinite height the walls of the unit
    square are returned, their top vertices at infinity; with a NaN height
    so is its top surface. *)
Lemma non_finite_height_not_rejected :
  ~ (forall triangulate g z_top,
       non_finite z_top = true ->
       (exists e, polygon_to_3d_top triangulate g z_top = Raise e) /\
       (exists e, polygon_side_walls g z_top = Raise e)).
Proof.
  intros H.
  destruct (H fan_triangulate (GPolygon unit_square) (Float infinity) eq_refl)
    as [_ [e He]].
  rewrite unit_square_walls_infinite in He. discriminate.
Qed.

(** C8, amended: neither function looks at the height.  With a height
    that is not finite, [polygon_to_3d_top] returns, whenever the
    triangulation returns, a fragment whose z values are all that height,
    and [polygon_side_walls] returns, on 2D polygons, a fragment whose z
    values are that height for the two top vertices and the integer 0 for
    the two bottom vertices of each edge. *)
Theorem non_finite_height_propagated triangulate g z_top :
  non_finite z_top = true ->
  (forall ts, triangles_of triangulate (polys_of g) = Ok ts ->
     exists f, polygon_to_3d_top triangulate g z_top = Ok f /\
               fz f = flat_map (fun _ => [z_top; z_top; z_top]) ts) /\
  (planar_geometry g = true ->
     exists f, polygon_side_walls g z_top = Ok f /\
               fz f = flat_map (fun _ => [z_top; z_top; Int 0; Int 0]) (all_edges g)).
Proof.
  intros _. split.
  - intros ts H. exists (top_of_triangles z_top ts). split.
    + rewrite polygon_to_3d_top_spec, H. reflexivity.
    + rewrite top_of_triangles_fields. reflexivity.
  - intros Hg. exists (walls_of_edges z_top (all_edges g)). split.
    + now apply polygon_side_walls_planar.
    + rewrite walls_of_edges_fields. reflexivity.
Qed.

Lemma non_finite_height_propagated_witness :
  (exists f, polygon_to_3d_top fan_triangulate (GPolygon unit_square) (Float nan) = Ok f /\
             fz f = [Float nan; Float nan; Float nan; Float nan; Float nan; Float nan]) /\
  (exists f, polygon_side_walls (GPolygon unit_square) (Float nan) = Ok f /\
             fz f = [Float nan; Float nan; Int 0; Int 0; Float nan; Float nan; Int 0; Int 0;
                     Float nan; Float nan; Int 0; Int 0; Float nan; Float nan; Int 0; Int 0]).
Proof.
  destruct (non_finite_height_propagated fan_triangulate (GPolygon unit_square)
              (Float nan) eq_refl) as [Htop Hwall].
  split.
  - destruct (Htop [mkPolygon [XY 0 0; XY 1 0; XY 1 1; XY 0 0];
                    mkPolygon [XY 0 0; XY 1 1; XY 0 1; XY 0 0]])
      as (f & Hf & Hz); [vm_compute; reflexivity|].
    exists f. split; [exact Hf | exact Hz].
  - destruct Hwall as (f & Hf & Hz); [vm_compute; reflexivity|].
    exists f. split; [exact Hf | exact Hz].
Defined.

(** ** Well-formed fragments *)

Lemma flat_map_length_Forall (A B : Type) (h : A -> list B) (k : nat) (l : list A) :
  Forall (fun a => length (h a) = k) l -> length (flat_map h l) = k * length l.
Proof.
  induction 1 as [|a l Ha _ IH]; simpl; [lia|].
  rewrite length_app, Ha, IH. lia.
Qed.

Lemma walls_of_edges_wf z_top es : well_formed (walls_of_edges z_top es).
Proof.
  pose proof (walls_of_edges_counts z_top es) as (Hx & Hy & Hz & Hi & Hj & Hk).
  constructor; try lia;
    unfold index_ok, nverts; rewrite Hx; rewrite walls_of_edges_fields; cbn [fi fj fk];
    apply Forall_flat_map, Forall_forall; intros m Hm; apply in_seq in Hm;
    unfold quad_i, quad_j, quad_k; repeat constructor; lia.
Qed.

Lemma top_of_triangles_vertices z_top ts :
  Forall (fun t => 3 <= length (exterior t)) ts ->
  length (fx (top_of_triangles z_top ts)) = 3 * length ts /\
  length (fy (top_of_triangles z_top ts)) = 3 * length ts.
Proof.
  intros H. rewrite top_of_triangles_fields. cbn [fx fy].
  split; apply flat_map_length_Forall; revert H; apply Forall_impl;
    intros t Ht; unfold tri_x, tri_y; rewrite length_map, length_firstn; lia.
Qed.

Lemma top_of_triangles_wf z_top ts :
  Forall (fun t => 3 <= length (exterior t)) ts ->
  well_formed (top_of_triangles z_top ts).
Proof.
  intros H.
  pose proof (top_of_triangles_vertices z_top ts H) as (Hx & Hy).
  pose proof (top_of_triangles_counts z_top ts) as (Hz & Hi & Hj & Hk).
  constructor; try lia;
    unfold index_ok, nverts; rewrite Hx; rewrite top_of_triangles_fields; cbn [fi fj fk];
    apply Forall_map, Forall_forall; intros m Hm; apply in_seq in Hm;
    unfold tri_i, tri_j, tri_k; lia.
Qed.

Lemma fan_closed c0 l : Forall (fun t => 3 <= length (exterior t)) (fan c0 l).
Proof.
  induction l as [|c1 l IH]; [constructor|].
  destruct l as [|c2 l']; [constructor|].
  cbn [fan]. destruct (PrimFloat.eqb (cross c0 c1 c2) 0); [exact IH|].
  constructor; [simpl; lia | exact IH].
Qed.

Lemma fan_triangulate_closed : closed_triangles fan_triangulate.
Proof.
  intros p ts. unfold fan_triangulate.
  destruct (strip_closing (exterior p)) as [|c0 l]; intros [= <-];
    [constructor | apply fan_closed].
Qed.

(** C10: the fragments returned are well formed.  The lists [x], [y], [z]
    have one length, the lists [i], [j], [k] have one length, every index is
    a position of the coordinate lists, the top fragment has three vertices
    for each index triple and the wall fragment two; for the top fragment,
    when the triangles the triangulation returns are closed rings. *)
Theorem fragments_well_formed triangulate g z_top :
  closed_triangles triangulate ->
  (forall f, polygon_to_3d_top triangulate g z_top = Ok f ->
     well_formed f /\ length (fx f) = 3 * length (fi f)) /\
  (forall f, polygon_side_walls g z_top = Ok f ->
     well_formed f /\ length (fx f) = 2 * length (fi f)).
Proof.
  intros Hc. split; intros f Hf.
  - apply polygon_to_3d_top_Ok in Hf. destruct Hf as (ts & Hts & ->).
    pose proof (triangles_of_closed _ _ _ Hc Hts) as Hclosed.
    split; [now apply top_of_triangles_wf|].
    pose proof (top_of_triangles_vertices z_top ts Hclosed) as (Hx & _).
    pose proof (top_of_triangles_counts z_top ts) as (_ & Hi & _). lia.
  - apply polygon_side_walls_Ok in Hf. destruct Hf as [_ ->].
    split; [apply walls_of_edges_wf|].
    pose proof (walls_of_edges_counts z_top (all_edges g)) as (Hx & _ & _ & Hi & _).
    lia.
Qed.

Lemma fragments_well_formed_witness :
  (exists f, polygon_to_3d_top fan_triangulate (GPolygon unit_square) (Float 5) = Ok f /\
             well_formed f /\ length (fx f) = 6 /\ length (fi f) = 2) /\
  (exists f, polygon_side_walls (GPolygon unit_square) (Float 5) = Ok f /\
             well_formed f /\ length (fx f) = 16 /\ length (fi f) = 8).
Proof.
  destruct (fragments_well_formed fan_triangulate (GPolygon unit_square) (Float 5)
              fan_triangulate_closed) as [Htop Hwall].
  split.
  - eexists. split; [exact unit_square_top|].
    destruct (Htop _ unit_square_top) as [Hwf _].
    split; [exact Hwf|]. split; reflexivity.
  - eexists. split; [exact unit_square_walls|].
    destruct (Hwall _ unit_square_walls) as [Hwf _].
    split; [exact Hwf|]. split; reflexivity.
Defined.

(** ** Concatenation of fragments *)

Lemma frag_app_empty_l f : frag_app empty_fragment f = f.
Proof.
  destruct f. unfold frag_app. simpl. now rewrite !map_shift_0.
Qed.

Lemma walls_of_edges_app z_top a b :
  walls_of_edges z_top (a ++ b) =
  frag_app (walls_of_edges z_top a) (walls_of_edges z_top b).
Proof.
  pose proof (walls_of_edges_counts z_top a) as (Hx & _).
  unfold frag_app, nverts. rewrite Hx.
  rewrite (walls_of_edges_fields z_top a), (walls_of_edges_fields z_top b).
  unfold walls_of_edges. rewrite fold_left_app, (emit_edges_state z_top b).
  rewrite (emit_edges_state z_top a wall_init).
  unfold wall_fragment.
  cbn [wall_x wall_y wall_z wall_i wall_j wall_k wall_vertex_offset wall_init
       fx fy fz fi fj fk app].
  rewrite !map_shift_0.
  replace (0 + 4 * Z.of_nat (length a))%Z with (Z.of_nat (4 * length a)) by lia.
  reflexivity.
Qed.

Lemma top_of_triangles_app z_top a b :
  Forall (fun t => 3 <= length (exterior t)) a ->
  top_of_triangles z_top (a ++ b) =
  frag_app (top_of_triangles z_top a) (top_of_triangles z_top b).
Proof.
  intros Ha.
  pose proof (top_of_triangles_vertices z_top a Ha) as (Hx & _).
  unfold frag_app, nverts. rewrite Hx.
  rewrite (top_of_triangles_fields z_top a), (top_of_triangles_fields z_top b).
  unfold top_of_triangles. rewrite fold_left_app, (top_triangles_state z_top b).
  rewrite (top_triangles_state z_top a top_init).
  unfold top_fragment.
  cbn [top_x top_y top_z top_i top_j top_k top_vertex_offset top_init
       fx fy fz fi fj fk app].
  rewrite !map_shift_0.
  replace (0 + 3 * Z.of_nat (length a))%Z with (Z.of_nat (3 * length a)) by lia.
  reflexivity.
Qed.

(** A fragment built from a list of pieces, when building distributes over
    [++] on the lists that satisfy [good]: the fragments of the lists of
    [ls], concatenated, are the fragment of [concat ls]. *)
Section ConcatOfPieces.

Context {A : Type}.
Variable build : list A -> fragment.
Variable good : A -> Prop.
Hypothesis build_nil : build [] = empty_fragment.
Hypothesis build_app :
  forall a b, Forall good a -> build (a ++ b) = frag_app (build a) (build b).

Lemma fold_frag_app_build ls acc :
  Forall good acc -> Forall (Forall good) ls ->
  fold_left frag_app (map build ls) (build acc) = build (acc ++ concat ls).
Proof.
  revert acc. induction ls as [|l ls IH]; intros acc Hacc Hls; simpl.
  - now rewrite app_nil_r.
  - inversion Hls as [|? ? Hl Hrest]; subst.
    rewrite <- build_app by exact Hacc.
    rewrite IH; [now rewrite app_assoc | apply Forall_app; now split | exact Hrest].
Qed.

Lemma frag_concat_build ls :
  Forall (Forall good) ls ->
  frag_concat (map build ls) = build (concat ls).
Proof.
  intros Hls. unfold frag_concat. rewrite <- build_nil.
  now rewrite fold_frag_app_build.
Qed.

End ConcatOfPieces.

Lemma frag_app_counts f g :
  nverts (frag_app f g) = nverts f + nverts g /\
  ntris (frag_app f g) = ntris f + ntris g.
Proof.
  unfold nverts, ntris, frag_app. simpl. now rewrite !length_app, length_map.
Qed.

Lemma frag_concat_snoc fs f :
  frag_concat (fs ++ [f]) = frag_app (frag_concat fs) f.
Proof. unfold frag_concat. now rewrite fold_left_app. Qed.

Lemma frag_concat_counts fs :
  nverts (frag_concat fs) = list_sum (map nverts fs) /\
  ntris (frag_concat fs) = list_sum (map ntris fs).
Proof.
  induction fs as [|f fs [IHv IHt]] using rev_ind; [split; reflexivity|].
  rewrite frag_concat_snoc, !map_app, !list_sum_app.
  destruct (frag_app_counts (frag_concat fs) f) as [-> ->].
  simpl. lia.
Qed.

Lemma frag_app_wf f g : well_formed f -> well_formed g -> well_formed (frag_app f g).
Proof.
  intros [Fy Fz Fj Fk Fi_ Fj_ Fk_] [Gy Gz Gj Gk Gi_ Gj_ Gk_].
  assert (Hshift : forall l, Forall (index_ok f) l -> Forall (index_ok (frag_app f g)) l).
  { intros l. apply Forall_impl. intros v. unfold index_ok.
    destruct (frag_app_counts f g) as [-> _]. lia. }
  assert (Hmap : forall l, Forall (index_ok g) l ->
                 Forall (index_ok (frag_app f g)) (map (Z.add (Z.of_nat (nverts f))) l)).
  { intros l Hl. apply Forall_map. revert Hl. apply Forall_impl. intros v.
    unfold index_ok. destruct (frag_app_counts f g) as [-> _]. lia. }
  constructor; cbn [frag_app fx fy fz fi fj fk];
    rewrite ?length_app, ?length_map; try congruence;
    apply Forall_app; split; auto.
Qed.

Lemma frag_concat_wf fs : Forall well_formed fs -> well_formed (frag_concat fs).
Proof.
  induction fs as [|f fs IH] using rev_ind; intros H.
  - constructor; simpl; auto.
  - apply Forall_app in H. destruct H as [Hfs Hf].
    rewrite frag_concat_snoc. apply frag_app_wf; [now apply IH | now inversion Hf].
Qed.

Lemma nth_error_lt_Some (A : Type) (l : list A) (n : nat) :
  n < length l -> exists a, nth_error l n = Some a.
Proof.
  intros H. destruct (nth_error l n) as [a|] eqn:E; [now exists a|].
  apply nth_error_None in E. lia.
Qed.

Lemma index_ok_nth f l n v :
  Forall (index_ok f) l -> nth_error l n = Some v -> index_ok f v.
Proof.
  intros H E. rewrite Forall_forall in H. apply H. eapply nth_error_In; eauto.
Qed.

Lemma frag_concat_own_block fs t :
  Forall well_formed fs -> t < ntris (frag_concat fs) -> own_block fs t.
Proof.
  revert t. induction fs as [|f fs IH] using rev_ind; intros t Hwf Ht.
  - change (ntris (frag_concat [])) with 0 in Ht. lia.
  - apply Forall_app in Hwf. destruct Hwf as [Hfs Hf].
    assert (Hf' : well_formed f) by now inversion Hf.
    pose proof (frag_concat_wf fs Hfs) as HF.
    rewrite frag_concat_snoc in Ht.
    destruct (frag_app_counts (frag_concat fs) f) as [_ Hn]. rewrite Hn in Ht.
    unfold own_block. rewrite frag_concat_snoc. cbn [frag_app fi fj fk].
    destruct (lt_dec t (ntris (frag_concat fs))) as [Hlt|Hge].
    + destruct (IH t Hfs Hlt) as (c & f' & vi & vj & vk & Hc & Hi & Hj & Hk & Hr).
      assert (Hclt : c < length fs) by (apply nth_error_Some; now rewrite Hc).
      exists c, f', vi, vj, vk.
      rewrite nth_error_app1 by exact Hclt.
      rewrite !nth_error_app1
        by (rewrite ?(wf_j _ HF), ?(wf_k _ HF); exact Hlt).
      rewrite firstn_app. replace (c - length fs) with 0 by lia.
      cbn [firstn]. rewrite app_nil_r. auto.
    + unfold ntris in *.
      destruct (nth_error_lt_Some _ (fi f) (t - length (fi (frag_concat fs))))
        as [vi Hi]; [lia|].
      destruct (nth_error_lt_Some _ (fj f) (t - length (fi (frag_concat fs))))
        as [vj Hj]; [rewrite (wf_j _ Hf'); lia|].
      destruct (nth_error_lt_Some _ (fk f) (t - length (fi (frag_concat fs))))
        as [vk Hk]; [rewrite (wf_k _ Hf'); lia|].
      pose proof (index_ok_nth _ _ _ _ (wf_i_range _ Hf') Hi) as Ri.
      pose proof (index_ok_nth _ _ _ _ (wf_j_range _ Hf') Hj) as Rj.
      pose proof (index_ok_nth _ _ _ _ (wf_k_range _ Hf') Hk) as Rk.
      unfold index_ok in Ri, Rj, Rk.
      set (shift := Z.add (Z.of_nat (nverts (frag_concat fs)))).
      exists (length fs), f, (shift vi), (shift vj), (shift vk).
      rewrite nth_error_app2, Nat.sub_diag by lia.
      rewrite !nth_error_app2
        by (rewrite ?(wf_j _ HF), ?(wf_k _ HF); lia).
      rewrite (wf_j _ HF), (wf_k _ HF).
      rewrite (map_nth_error shift _ _ Hi), (map_nth_error shift _ _ Hj),
        (map_nth_error shift _ _ Hk).
      rewrite firstn_app, Nat.sub_diag, firstn_all. cbn [firstn].
      rewrite app_nil_r.
      destruct (frag_concat_counts fs) as [<- _].
      subst shift. cbv zeta. repeat split; lia.
Qed.

(** ** The constituents of a MultiPolygon *)

Lemma top_constituents triangulate z_top polys fs :
  Forall2 (fun p f => polygon_to_3d_top triangulate (GPolygon p) z_top = Ok f) polys fs ->
  exists tss,
    Forall2 (fun p ts => triangulate p = Ok ts) polys tss /\
    fs = map (top_of_triangles z_top) tss /\
    triangles_of triangulate polys = Ok (concat tss).
Proof.
  induction 1 as [|p f polys fs Hp _ (tss & Htss & -> & Hall)].
  - exists []. repeat split. constructor.
  - apply polygon_to_3d_top_Ok in Hp. destruct Hp as (ts & Hts & ->).
    simpl in Hts. destruct (triangulate p) as [ts0|e] eqn:E; simpl in Hts; [|discriminate].
    injection Hts as <-. rewrite app_nil_r.
    exists (ts0 :: tss). split; [now constructor|]. split; [reflexivity|].
    simpl. rewrite E, Hall. reflexivity.
Qed.

Lemma walls_constituents z_top polys fs :
  Forall2 (fun p f => polygon_side_walls (GPolygon p) z_top = Ok f) polys fs ->
  forallb planar polys = true /\
  fs = map (fun p => walls_of_edges z_top (ring_edges (boundary_of p))) polys.
Proof.
  induction 1 as [|p f polys fs Hp _ (Hall & ->)].
  - split; reflexivity.
  - apply polygon_side_walls_Ok in Hp. destruct Hp as [Hplanar ->].
    unfold planar_geometry in Hplanar. simpl in Hplanar.
    rewrite andb_true_r in Hplanar. rewrite all_edges_single.
    simpl. rewrite Hplanar, Hall. split; reflexivity.
Qed.

(** C6: for a MultiPolygon, the fragment of either function is the
    concatenation [frag_concat], with the indices shifted by the vertices
    that come before, of the fragments the function returns for each
    constituent alone.  So its triangles are as many as those of the
    constituents together, and each triangle has all three indices among the
    vertices of one constituent.  (For the top surface, when the triangles
    the triangulation returns are closed rings.) *)
Theorem multipolygon_is_concatenation triangulate polys z_top :
  closed_triangles triangulate ->
  (forall fs,
     Forall2 (fun p f => polygon_to_3d_top triangulate (GPolygon p) z_top = Ok f)
       polys fs ->
     polygon_to_3d_top triangulate (GMultiPolygon polys) z_top = Ok (frag_concat fs) /\
     ntris (frag_concat fs) = list_sum (map ntris fs) /\
     (forall t, t < ntris (frag_concat fs) -> own_block fs t)) /\
  (forall fs,
     Forall2 (fun p f => polygon_side_walls (GPolygon p) z_top = Ok f) polys fs ->
     polygon_side_walls (GMultiPolygon polys) z_top = Ok (frag_concat fs) /\
     ntris (frag_concat fs) = list_sum (map ntris fs) /\
     (forall t, t < ntris (frag_concat fs) -> own_block fs t)).
Proof.
  intros Hc. split; intros fs Hfs.
  - destruct (top_constituents _ _ _ _ Hfs) as (tss & Htss & -> & Hall).
    assert (Hclosed : Forall (Forall (fun t => 3 <= length (exterior t))) tss).
    { clear Hfs Hall. induction Htss as [|p ts polys tss Hp _ IH]; constructor;
        [now apply (Hc p) | exact IH]. }
    split; [|split].
    + rewrite polygon_to_3d_top_spec. simpl polys_of. rewrite Hall. simpl. f_equal.
      symmetry. apply (frag_concat_build (top_of_triangles z_top)
                         (fun t => 3 <= length (exterior t))).
      * apply top_of_no_triangles.
      * intros a b. apply top_of_triangles_app.
      * exact Hclosed.
    + apply frag_concat_counts.
    + intros t. apply frag_concat_own_block.
      apply Forall_map. revert Hclosed. apply Forall_impl.
      intros ts. apply top_of_triangles_wf.
  - destruct (walls_constituents _ _ _ Hfs) as (Hplanar & ->).
    split; [|split].
    + rewrite polygon_side_walls_planar by exact Hplanar. f_equal.
      unfold all_edges. simpl polys_of. rewrite flat_map_concat_map.
      rewrite <- (frag_concat_build (walls_of_edges z_top) (fun _ => True)).
      * now rewrite map_map.
      * reflexivity.
      * intros a b _. apply walls_of_edges_app.
      * apply Forall_forall. intros l _. apply Forall_forall. auto.
    + apply frag_concat_counts.
    + intros t. apply frag_concat_own_block.
      apply Forall_map, Forall_forall. intros p _. apply walls_of_edges_wf.
Qed.

Lemma multipolygon_is_concatenation_witness :
  (exists f1 f2,
     polygon_to_3d_top fan_triangulate (GPolygon unit_square) (Float 5) = Ok f1 /\
     polygon_to_3d_top fan_triangulate (GPolygon far_square) (Float 5) = Ok f2 /\
     polygon_to_3d_top fan_triangulate (GMultiPolygon [unit_square; far_square]) (Float 5)
       = Ok (frag_concat [f1; f2]) /\
     ntris f1 = 2 /\ ntris f2 = 2 /\ ntris (frag_concat [f1; f2]) = 4 /\
     own_block [f1; f2] 3) /\
  (exists f1 f2,
     polygon_side_walls (GPolygon unit_square) (Float 5) = Ok f1 /\
     polygon_side_walls (GPolygon far_square) (Float 5) = Ok f2 /\
     polygon_side_walls (GMultiPolygon [unit_square; far_square]) (Float 5)
       = Ok (frag_concat [f1; f2]) /\
     ntris f1 = 8 /\ ntris f2 = 8 /\ ntris (frag_concat [f1; f2]) = 16 /\
     own_block [f1; f2] 9).
Proof.
  destruct (multipolygon_is_concatenation fan_triangulate [unit_square; far_square]
              (Float 5) fan_triangulate_closed) as [Htop Hwall].
  split.
  - eexists. eexists.
    split; [vm_compute; reflexivity|]. split; [vm_compute; reflexivity|].
    lazymatch goal with
    | |- _ = Ok (frag_concat ?fs) /\ _ => destruct (Htop fs) as (Hm & Hn & Hown)
    end.
    + repeat constructor.
    + split; [exact Hm|]. split; [reflexivity|]. split; [reflexivity|].
      split; [reflexivity|]. apply Hown. vm_compute. lia.
  - eexists. eexists.
    split; [vm_compute; reflexivity|]. split; [vm_compute; reflexivity|].
    lazymatch goal with
    | |- _ = Ok (frag_concat ?fs) /\ _ => destruct (Hwall fs) as (Hm & Hn & Hown)
    end.
    + repeat constructor.
    + split; [exact Hm|]. split; [reflexivity|]. split; [reflexivity|].
      split; [reflexivity|]. apply Hown. vm_compute. lia.
Defined.

(** * Further properties of the two mesh functions *)

(** ** The only exception of the wall loop *)

Lemma for_each_Raise_inv (A S : Type) (body : S -> A -> result S) (l : list A)
  (st : S) (e : exn) :
  for_each body l st = Raise e -> exists a s, In a l /\ body s a = Raise e.
Proof.
  revert st. induction l as [|a l IH]; intros st H; simpl in H; [discriminate|].
  destruct (body st a) as [st'|e'] eqn:E; simpl in H.
  - destruct (IH _ H) as (a' & s & Hin & Hs). exists a', s. split; [now right | exact Hs].
  - injection H as ->. exists a, st. split; [now left | exact E].
Qed.

Lemma wall_edge_Raise z_top boundary st idx e :
  idx < length boundary ->
  wall_edge z_top boundary (length boundary) st idx = Raise e -> e = ValueError.
Proof.
  intros Hidx. unfold wall_edge, getitem.
  destruct (nth_error_lt_Some _ boundary idx Hidx) as [c1 ->].
  destruct (nth_error_lt_Some _ boundary ((idx + 1) mod length boundary)) as [c2 ->];
    [apply Nat.mod_upper_bound; lia|].
  destruct c1, c2; simpl; congruence.
Qed.

Lemma wall_poly_Raise z_top st p e :
  wall_poly z_top st p = Raise e -> e = ValueError.
Proof.
  unfold wall_poly. intros H.
  apply for_each_Raise_inv in H. destruct H as (idx & s & Hin & Hs).
  apply in_seq in Hin. eapply wall_edge_Raise; [|exact Hs]. lia.
Qed.

(** X1: [polygon_side_walls] raises nothing but [ValueError], and raises it
    exactly when some boundary it walks has a point that is not a pair. *)
Theorem side_walls_error g z_top :
  (forall e, polygon_side_walls g z_top = Raise e -> e = ValueError) /\
  (polygon_side_walls g z_top = Raise ValueError <-> planar_geometry g = false).
Proof.
  assert (Hraise : forall e, polygon_side_walls g z_top = Raise e -> e = ValueError).
  { intros e. unfold polygon_side_walls.
    destruct (for_each (wall_poly z_top) (polys_of g) wall_init) as [st|e'] eqn:E;
      simpl; [discriminate|].
    intros [= <-]. apply for_each_Raise_inv in E. destruct E as (p & s & _ & Hs).
    now apply wall_poly_Raise in Hs. }
  split; [exact Hraise|]. split.
  - intros H. destruct (planar_geometry g) eqn:Hg; [|reflexivity].
    rewrite (polygon_side_walls_planar g z_top Hg) in H. discriminate.
  - intros Hg. destruct (polygon_side_walls g z_top) as [f|e] eqn:E.
    + apply polygon_side_walls_Ok_planar in E. congruence.
    + now rewrite (Hraise e eq_refl).
Qed.

(** ** Stripping and empty input *)

Lemma strip_closing_cases boundary :
  strip_closing boundary = boundary \/
  (2 <= length boundary /\ strip_closing boundary = removelast boundary).
Proof.
  unfold strip_closing. destruct boundary as [|c0 [|c1 l]]; auto.
  destruct (coord_eqb c0 (last (c0 :: c1 :: l) c0)); auto.
  right. split; [simpl; lia | reflexivity].
Qed.

Lemma removelast_firstn_pred (A : Type) (l : list A) :
  removelast l = firstn (length l - 1) l.
Proof.
  destruct l as [|a l] using rev_ind; [reflexivity|].
  rewrite removelast_last, length_app. simpl length.
  replace (length l + 1 - 1) with (length l) by lia.
  now rewrite firstn_app, Nat.sub_diag, firstn_all, app_nil_r.
Qed.

(** X3: stripping drops at most the last point of the exterior sequence and
    nothing else: the boundary walked is a prefix of the sequence, shorter by
    at most one, and it has a point whenever the sequence has one. *)
Theorem boundary_is_prefix p :
  boundary_of p = firstn (length (boundary_of p)) (exterior p) /\
  length (exterior p) - 1 <= length (boundary_of p) <= length (exterior p) /\
  (boundary_of p = [] <-> exterior p = []).
Proof.
  unfold boundary_of.
  destruct (strip_closing_cases (exterior p)) as [->|[Hlen ->]].
  - rewrite firstn_all. split; [reflexivity|]. split; [lia|tauto].
  - rewrite removelast_firstn_pred, length_firstn.
    replace (Nat.min (length (exterior p) - 1) (length (exterior p)))
      with (length (exterior p) - 1) by lia.
    split; [reflexivity|]. split; [lia|].
    split; intros H.
    + apply (f_equal (@length coord)) in H. rewrite length_firstn in H.
      simpl in H. lia.
    + rewrite H in Hlen. simpl in Hlen. lia.
Qed.

(** Only one closing point is dropped: a ring closed twice keeps a closing
    duplicate. *)
Example twice_closed_boundary :
  boundary_of (mkPolygon [XY 0 0; XY 1 0; XY 1 1; XY 0 0; XY 0 0]) =
  [XY 0 0; XY 1 0; XY 1 1; XY 0 0].
Proof. vm_compute. reflexivity. Qed.

Lemma all_edges_nil g :
  all_edges g = [] <-> (forall p, In p (polys_of g) -> exterior p = []).
Proof.
  rewrite <- (length_zero_iff_nil (all_edges g)), all_edges_length.
  unfold boundary_total. induction (polys_of g) as [|q l IH]; simpl.
  - split; [intros _ p [] | reflexivity].
  - split.
    + intros H p [<-|Hp].
      * apply (proj2 (proj2 (boundary_is_prefix q))).
        apply length_zero_iff_nil. lia.
      * apply IH; [lia | exact Hp].
    + intros H.
      assert (Hq : boundary_of q = [])
        by (apply (proj2 (proj2 (boundary_is_prefix q))); apply H; now left).
      rewrite Hq. simpl. apply IH. intros p Hp. apply H. now right.
Qed.

(** X2: the fragments are empty exactly when there is nothing to draw.
    [polygon_side_walls] returns the empty fragment if and only if every
    constituent has an empty exterior sequence (so also for a MultiPolygon
    with no part), and [polygon_to_3d_top] if and only if the triangulation
    returns no triangle at all. *)
Theorem empty_fragment_iff triangulate g z_top :
  (polygon_side_walls g z_top = Ok empty_fragment <->
   forall p, In p (polys_of g) -> exterior p = []) /\
  (polygon_to_3d_top triangulate g z_top = Ok empty_fragment <->
   triangles_of triangulate (polys_of g) = Ok []).
Proof.
  split; split.
  - intros H. apply all_edges_nil.
    pose proof (polygon_side_walls_Ok _ _ _ H) as [_ Hf].
    pose proof (walls_of_edges_counts z_top (all_edges g)) as (Hx & _).
    rewrite <- Hf in Hx. simpl in Hx.
    apply length_zero_iff_nil. lia.
  - intros H. apply all_edges_nil in H.
    assert (Hg : planar_geometry g = true).
    { apply forallb_forall. intros p Hp. unfold planar.
      pose proof (all_edges_nil g) as [Hall _].
      replace (boundary_of p) with (@nil coord); [reflexivity|].
      symmetry. apply (proj2 (proj2 (boundary_is_prefix p))).
      now apply Hall. }
    rewrite (polygon_side_walls_planar g z_top Hg), H. reflexivity.
  - intros H. destruct (polygon_to_3d_top_Ok _ _ _ _ H) as (ts & Hts & Hf).
    pose proof (top_of_triangles_counts z_top ts) as (_ & Hi & _).
    rewrite <- Hf in Hi. simpl in Hi.
    rewrite Hts. f_equal. apply length_zero_iff_nil. lia.
  - intros H. rewrite polygon_to_3d_top_spec, H. reflexivity.
Qed.

(** ** A ring given closed or open *)

Lemma wall_loop_boundaries z_top ps1 ps2 st :
  map boundary_of ps1 = map boundary_of ps2 ->
  for_each (wall_poly z_top) ps1 st = for_each (wall_poly z_top) ps2 st.
Proof.
  revert ps2 st. induction ps1 as [|p1 ps1 IH]; intros [|p2 ps2] st H;
    simpl in H; try discriminate; [reflexivity|].
  injection H as Hb Hrest. simpl.
  assert (Hp : wall_poly z_top st p1 = wall_poly z_top st p2).
  { unfold wall_poly. fold (boundary_of p1). fold (boundary_of p2). now rewrite Hb. }
  rewrite Hp. destruct (wall_poly z_top st p2); simpl; [now apply IH | reflexivity].
Qed.

(** X4: a ring given with its closing point (a last point [==] the first)
    and the same ring given without it have the same walls, or raise the
    same exception; this for a ring that, once open, does not end with its
    first point again. *)
Theorem closed_or_open_same_walls c0 mid cl z_top :
  coord_eqb c0 cl = true ->
  strip_closing (c0 :: mid) = c0 :: mid ->
  polygon_side_walls (GPolygon (mkPolygon (c0 :: mid ++ [cl]))) z_top =
  polygon_side_walls (GPolygon (mkPolygon (c0 :: mid))) z_top.
Proof.
  intros Heq Hopen. unfold polygon_side_walls.
  rewrite (wall_loop_boundaries z_top
             (polys_of (GPolygon (mkPolygon (c0 :: mid ++ [cl]))))
             (polys_of (GPolygon (mkPolygon (c0 :: mid))))); [reflexivity|].
  simpl. unfold boundary_of. simpl exterior.
  now rewrite (strip_closing_closed c0 mid cl Heq), Hopen.
Qed.

Lemma closed_or_open_same_walls_witness :
  polygon_side_walls (GPolygon unit_square) (Float 5) =
  polygon_side_walls (GPolygon (mkPolygon [XY 0 0; XY 1 0; XY 1 1; XY 0 1])) (Float 5).
Proof.
  apply (closed_or_open_same_walls (XY 0 0) [XY 1 0; XY 1 1; XY 0 1] (XY 0 0) (Float 5));
    vm_compute; reflexivity.
Defined.

(** ** The layout of the top surface *)

Lemma flat_map_block_Forall (A B : Type) (h : A -> list B) (k : nat) (l : list A)
  (e : nat) (a : A) :
  Forall (fun a => length (h a) = k) l ->
  nth_error l e = Some a ->
  firstn k (skipn (k * e) (flat_map h l)) = h a.
Proof.
  intros Hall. revert e. induction Hall as [|a0 l Ha0 _ IH]; intros [|e] He;
    simpl in He; try discriminate.
  - injection He as ->. rewrite Nat.mul_0_r. simpl.
    rewrite firstn_app, Ha0, Nat.sub_diag. simpl.
    rewrite app_nil_r. apply firstn_all2. lia.
  - simpl flat_map. rewrite skipn_app, Ha0.
    rewrite skipn_all2 by lia. simpl.
    replace (k * S e - k) with (k * e) by lia. now apply IH.
Qed.

(** X5: in the fragment [polygon_to_3d_top] returns, triangle number [t]
    of the triangulation (over all constituents, in order) owns the three
    vertices at positions [3 * t ..]: the first three coordinates of its
    ring, a fourth one being left out, at height [z_top]; and its index
    triple is [(3 * t, 3 * t + 1, 3 * t + 2)].  (When the triangles the
    triangulation returns are closed rings.) *)
Theorem top_triangle_layout triangulate g z_top f ts t c1 c2 c3 rest :
  closed_triangles triangulate ->
  triangles_of triangulate (polys_of g) = Ok ts ->
  polygon_to_3d_top triangulate g z_top = Ok f ->
  nth_error ts t = Some (mkPolygon (c1 :: c2 :: c3 :: rest)) ->
  let offset := (3 * Z.of_nat t)%Z in
  firstn 3 (skipn (3 * t) (fx f)) = [coord_x c1; coord_x c2; coord_x c3] /\
  firstn 3 (skipn (3 * t) (fy f)) = [coord_y c1; coord_y c2; coord_y c3] /\
  firstn 3 (skipn (3 * t) (fz f)) = [z_top; z_top; z_top] /\
  nth_error (fi f) t = Some (offset + 0)%Z /\
  nth_error (fj f) t = Some (offset + 1)%Z /\
  nth_error (fk f) t = Some (offset + 2)%Z.
Proof.
  intros Hc Hts Hf Ht offset.
  rewrite polygon_to_3d_top_spec, Hts in Hf. simpl in Hf. injection Hf as <-.
  pose proof (triangles_of_closed _ _ _ Hc Hts) as Hclosed.
  assert (Hlen : forall (c : coord -> float),
            Forall (fun tr => length (map c (firstn 3 (exterior tr))) = 3) ts).
  { intros c. revert Hclosed. apply Forall_impl. intros tr Htr.
    rewrite length_map, length_firstn. lia. }
  assert (Hlt : t < length ts) by (apply nth_error_Some; now rewrite Ht).
  rewrite top_of_triangles_fields. cbn [fx fy fz fi fj fk].
  rewrite (flat_map_block_Forall _ _ tri_x 3 ts t _ (Hlen coord_x) Ht),
    (flat_map_block_Forall _ _ tri_y 3 ts t _ (Hlen coord_y) Ht),
    (flat_map_block (tri_z z_top) 3 (fun _ => eq_refl) _ _ _ Ht).
  rewrite (map_nth_error tri_i _ _ (nth_error_seq0 _ _ Hlt)),
    (map_nth_error tri_j _ _ (nth_error_seq0 _ _ Hlt)),
    (map_nth_error tri_k _ _ (nth_error_seq0 _ _ Hlt)).
  unfold tri_i, tri_j, tri_k, offset.
  repeat split; f_equal; lia.
Qed.

Lemma top_triangle_layout_witness :
  exists f,
    polygon_to_3d_top fan_triangulate (GMultiPolygon [unit_square; far_square]) (Float 5)
      = Ok f /\
    firstn 3 (skipn 9 (fx f)) = [5; 6; 5]%float /\
    firstn 3 (skipn 9 (fy f)) = [5; 6; 6]%float /\
    firstn 3 (skipn 9 (fz f)) = [Float 5; Float 5; Float 5] /\
    nth_error (fi f) 3 = Some 9%Z /\
    nth_error (fj f) 3 = Some 10%Z /\
    nth_error (fk f) 3 = Some 11%Z.
Proof.
  eexists. split; [vm_compute; reflexivity|].
  eapply (top_triangle_layout fan_triangulate (GMultiPolygon [unit_square; far_square])
            (Float 5) _ _ 3 (XY 5 5) (XY 6 6) (XY 5 6) [XY 5 5] fan_triangulate_closed);
    vm_compute; reflexivity.
Defined.

(** ** Which vertices the triangles use *)

Lemma split_by (k v : Z) :
  (0 < k)%Z -> (0 <= v)%Z ->
  exists m r, v = (k * Z.of_nat m + r)%Z /\ (0 <= r < k)%Z.
Proof.
  intros Hk Hv. exists (Z.to_nat (v / k)), (v mod k)%Z.
  pose proof (Z.div_mod v k ltac:(lia)) as Hd.
  pose proof (Z.mod_pos_bound v k Hk) as Hm.
  assert (0 <= v / k)%Z by (apply Z.div_pos; lia).
  rewrite Z2Nat.id by assumption. lia.
Qed.

(** X6: in the fragment [polygon_to_3d_top] returns, each vertex belongs
    to exactly one triangle: the indices in [i], [j] and [k] together are
    pairwise different, and they are exactly the positions [0 .. 3T - 1] of
    the z list. *)
Theorem top_vertices_used_once triangulate g z_top f :
  polygon_to_3d_top triangulate g z_top = Ok f ->
  NoDup (fi f ++ fj f ++ fk f) /\
  forall v, In v (fi f ++ fj f ++ fk f) <-> (0 <= v < Z.of_nat (length (fz f)))%Z.
Proof.
  intros H. apply polygon_to_3d_top_Ok in H. destruct H as (ts & _ & ->).
  pose proof (top_of_triangles_counts z_top ts) as (Hz & _). rewrite Hz. clear Hz.
  rewrite top_of_triangles_fields. cbn [fi fj fk].
  set (T := length ts).
  assert (Hin : forall (c : Z) v, In v (map (fun m => 3 * Z.of_nat m + c)%Z (seq 0 T)) <->
                  exists m, m < T /\ v = (3 * Z.of_nat m + c)%Z).
  { intros c v. rewrite in_map_iff. split.
    - intros (m & <- & Hm). apply in_seq in Hm. exists m. split; [lia | reflexivity].
    - intros (m & Hm & ->). exists m. split; [reflexivity | apply in_seq; lia]. }
  assert (Hnd : forall c : Z, NoDup (map (fun m => 3 * Z.of_nat m + c)%Z (seq 0 T))).
  { intros c. apply NoDup_map_NoDup_ForallPairs; [|apply seq_NoDup].
    intros a b _ _ Hab. lia. }
  assert (Ei : map tri_i (seq 0 T) = map (fun m => 3 * Z.of_nat m + 0)%Z (seq 0 T)).
  { apply map_ext. intros m. unfold tri_i. lia. }
  rewrite Ei. change tri_j with (fun m => 3 * Z.of_nat m + 1)%Z.
  change tri_k with (fun m => 3 * Z.of_nat m + 2)%Z.
  split.
  - apply NoDup_app; [apply Hnd | apply NoDup_app; [apply Hnd | apply Hnd |] |].
    + intros v Hj Hk. apply Hin in Hj, Hk.
      destruct Hj as (m1 & _ & ->). destruct Hk as (m2 & _ & Hk). lia.
    + intros v Hi Hjk. apply Hin in Hi. destruct Hi as (m1 & _ & ->).
      apply in_app_or in Hjk. destruct Hjk as [Hj|Hk].
      * apply Hin in Hj. destruct Hj as (m2 & _ & Hj). lia.
      * apply Hin in Hk. destruct Hk as (m2 & _ & Hk). lia.
  - intros v. rewrite !in_app_iff, !Hin. split.
    + intros [(m & Hm & ->)|[(m & Hm & ->)|(m & Hm & ->)]]; lia.
    + intros [Hlo Hhi].
      destruct (split_by 3 v ltac:(lia) Hlo) as (m & r & -> & Hr).
      assert (Hm : m < T) by lia.
      assert (Hcase : (r = 0 \/ r = 1 \/ r = 2)%Z) by lia.
      destruct Hcase as [-> | [-> | ->]]; [left | right; left | right; right];
        exists m; split; auto.
Qed.

Lemma top_vertices_used_once_witness :
  exists f,
    polygon_to_3d_top fan_triangulate (GPolygon unit_square) (Float 5) = Ok f /\
    NoDup (fi f ++ fj f ++ fk f) /\
    (In 4%Z (fi f ++ fj f ++ fk f) <-> (0 <= 4 < 6)%Z).
Proof.
  eexists. split; [exact unit_square_top|].
  destruct (top_vertices_used_once fan_triangulate (GPolygon unit_square) (Float 5) _
              unit_square_top) as [Hnd Hin].
  split; [exact Hnd | exact (Hin 4%Z)].
Defined.

(** X7: in the fragment [polygon_side_walls] returns, no vertex is left
    unused: the indices that occur in [i], [j] or [k] are exactly the
    positions of the coordinate lists. *)
Theorem wall_vertices_all_used g z_top f :
  polygon_side_walls g z_top = Ok f ->
  forall v, In v (fi f ++ fj f ++ fk f) <-> (0 <= v < Z.of_nat (length (fx f)))%Z.
Proof.
  intros H v. apply polygon_side_walls_Ok in H. destruct H as [_ ->].
  pose proof (walls_of_edges_wf z_top (all_edges g)) as Hwf.
  pose proof (walls_of_edges_counts z_top (all_edges g)) as (Hx & _).
  split.
  - intros Hin. apply in_app_or in Hin.
    destruct Hin as [Hin|Hin]; [|apply in_app_or in Hin; destruct Hin as [Hin|Hin]].
    + exact (proj1 (Forall_forall _ _) (wf_i_range _ Hwf) v Hin).
    + exact (proj1 (Forall_forall _ _) (wf_j_range _ Hwf) v Hin).
    + exact (proj1 (Forall_forall _ _) (wf_k_range _ Hwf) v Hin).
  - rewrite Hx. rewrite walls_of_edges_fields. cbn [fi fj fk].
    intros [Hlo Hhi].
    destruct (split_by 4 v ltac:(lia) Hlo) as (m & r & -> & Hr).
    assert (Hm : In m (seq 0 (length (all_edges g)))) by (apply in_seq; lia).
    assert (Hcase : (r = 0 \/ r = 1 \/ r = 2 \/ r = 3)%Z) by lia.
    rewrite !in_app_iff, !in_flat_map.
    destruct Hcase as [-> | [-> | [-> | ->]]].
    + left. exists m. split; [exact Hm|]. left. lia.
    + left. exists m. split; [exact Hm|]. right. now left.
    + right. right. exists m. split; [exact Hm|]. now left.
    + right. left. exists m. split; [exact Hm|]. right. now left.
Qed.

Lemma wall_vertices_all_used_witness :
  exists f,
    polygon_side_walls (GPolygon unit_square) (Float 5) = Ok f /\
    (In 15%Z (fi f ++ fj f ++ fk f) <-> (0 <= 15 < 16)%Z).
Proof.
  eexists. split; [exact unit_square_walls|].
  exact (wall_vertices_all_used (GPolygon unit_square) (Float 5) _ unit_square_walls 15%Z).
Defined.

(** ** The height and the other lists *)

(** X8: the height goes into the z list only.  If one of the functions
    returns a fragment for a geometry at some height, it returns one at any
    other height, with the same [x], [y], [i], [j] and [k] and as many z
    values. *)
Theorem height_changes_only_z triangulate g z1 z2 :
  (forall f1, polygon_to_3d_top triangulate g z1 = Ok f1 ->
     exists f2, polygon_to_3d_top triangulate g z2 = Ok f2 /\
       fx f2 = fx f1 /\ fy f2 = fy f1 /\ fi f2 = fi f1 /\ fj f2 = fj f1 /\
       fk f2 = fk f1 /\ length (fz f2) = length (fz f1)) /\
  (forall f1, polygon_side_walls g z1 = Ok f1 ->
     exists f2, polygon_side_walls g z2 = Ok f2 /\
       fx f2 = fx f1 /\ fy f2 = fy f1 /\ fi f2 = fi f1 /\ fj f2 = fj f1 /\
       fk f2 = fk f1 /\ length (fz f2) = length (fz f1)).
Proof.
  split; intros f1 H.
  - apply polygon_to_3d_top_Ok in H. destruct H as (ts & Hts & ->).
    exists (top_of_triangles z2 ts). split.
    + rewrite polygon_to_3d_top_spec, Hts. reflexivity.
    + rewrite !top_of_triangles_fields. cbn [fx fy fz fi fj fk].
      rewrite !(flat_map_blocks_length (tri_z _) 3 (fun _ => eq_refl)).
      repeat split.
  - apply polygon_side_walls_Ok in H. destruct H as (Hg & ->).
    exists (walls_of_edges z2 (all_edges g)). split.
    + now apply polygon_side_walls_planar.
    + rewrite !walls_of_edges_fields. cbn [fx fy fz fi fj fk].
      rewrite !(flat_map_blocks_length (quad_z _) 4 (fun _ => eq_refl)).
      repeat split.
Qed.

(** ** The exception of the top surface *)

Lemma triangles_of_Raise triangulate polys e :
  triangles_of triangulate polys = Raise e <->
  exists pre p post,
    polys = pre ++ p :: post /\
    Forall (fun q => exists ts, triangulate q = Ok ts) pre /\
    triangulate p = Raise e.
Proof.
  induction polys as [|q ps IH]; simpl.
  - split; [discriminate|]. intros (pre & p & post & H & _). destruct pre; discriminate.
  - destruct (triangulate q) as [ts|e'] eqn:E; simpl.
    + split.
      * intros H.
        destruct (triangles_of triangulate ps) as [rest|e''] eqn:E2; simpl in H;
          [discriminate|].
        injection H as ->. destruct (proj1 IH eq_refl) as (pre & p & post & -> & Hpre & Hp).
        exists (q :: pre), p, post. split; [reflexivity|].
        split; [constructor; [now exists ts | exact Hpre] | exact Hp].
      * intros (pre & p & post & Hps & Hpre & Hp).
        destruct pre as [|q' pre]; simpl in Hps; injection Hps as -> ->.
        -- congruence.
        -- inversion Hpre; subst.
           assert (Hr : triangles_of triangulate (pre ++ p :: post) = Raise e).
           { apply IH. now exists pre, p, post. }
           now rewrite Hr.
    + split.
      * intros [= ->]. exists [], q, ps. split; [reflexivity|]. split; [constructor | exact E].
      * intros (pre & p & post & Hps & Hpre & Hp).
        destruct pre as [|q' pre]; simpl in Hps; injection Hps as -> ->.
        -- congruence.
        -- inversion Hpre as [|? ? [ts Hts] _]; subst. congruence.
Qed.

(** X9: [polygon_to_3d_top] raises [e] exactly when the triangulation
    raises [e] on some constituent and returns on all the constituents before
    it: the first exception of the triangulation comes out unchanged, and
    nothing of the constituents triangulated before is returned. *)
Theorem top_error_is_first triangulate g z_top e :
  polygon_to_3d_top triangulate g z_top = Raise e <->
  exists pre p post,
    polys_of g = pre ++ p :: post /\
    Forall (fun q => exists ts, triangulate q = Ok ts) pre /\
    triangulate p = Raise e.
Proof.
  rewrite <- triangles_of_Raise, polygon_to_3d_top_spec.
  destruct (triangles_of triangulate (polys_of g)); simpl; split; congruence.
Qed.

Example spatial_part_top :
  polygon_to_3d_top planar_fan_triangulate
    (GMultiPolygon [unit_square;
                    mkPolygon [XYZ 0 0 1; XYZ 1 0 1; XYZ 0 1 1; XYZ 0 0 1];
                    far_square]) (Float 5) =
  Raise GEOSException.
Proof. vm_compute. reflexivity. Qed.

(** ** Where the wall vertices lie *)

Lemma ring_edge_endpoints p edge :
  planar p = true -> In edge (ring_edges (boundary_of p)) ->
  exists x1 y1 x2 y2,
    edge = (XY x1 y1, XY x2 y2) /\
    In (XY x1 y1) (boundary_of p) /\ In (XY x2 y2) (boundary_of p).
Proof.
  intros Hp Hin. unfold ring_edges in Hin. apply in_map_iff in Hin.
  destruct Hin as (idx & <- & Hidx). apply in_seq in Hidx.
  assert (H1 : idx < length (boundary_of p)) by lia.
  assert (H2 : (idx + 1) mod length (boundary_of p) < length (boundary_of p))
    by (apply Nat.mod_upper_bound; lia).
  destruct (is_xy_nth _ _ Hp H1) as (x1 & y1 & E1 & N1).
  destruct (is_xy_nth _ _ Hp H2) as (x2 & y2 & E2 & N2).
  exists x1, y1, x2, y2. unfold edge_at. rewrite N1, N2.
  split; [reflexivity|]. split; eapply nth_error_In; eauto.
Qed.

(** X10: every vertex of the fragment [polygon_side_walls] returns stands
    on the boundary: its (x, y) is a point of the boundary of one of the
    constituents, and its z is [z_top] or the integer 0. *)
Theorem wall_vertices_on_boundary g z_top f v x y z :
  polygon_side_walls g z_top = Ok f ->
  nth_error (fx f) v = Some x ->
  nth_error (fy f) v = Some y ->
  nth_error (fz f) v = Some z ->
  (exists p, In p (polys_of g) /\ In (XY x y) (boundary_of p)) /\
  (z = z_top \/ z = Int 0).
Proof.
  intros Hf Hx Hy Hz. apply polygon_side_walls_Ok in Hf. destruct Hf as [Hg ->].
  pose proof (walls_of_edges_counts z_top (all_edges g)) as (Hlen & _).
  assert (Hv : v < 4 * length (all_edges g)).
  { rewrite <- Hlen. apply nth_error_Some. now rewrite Hx. }
  rewrite walls_of_edges_fields in Hx, Hy, Hz. cbn [fx fy fz] in Hx, Hy, Hz.
  pose proof (Nat.div_mod_eq v 4) as Hdm.
  pose proof (Nat.mod_upper_bound v 4 ltac:(lia)) as Hr.
  destruct (nth_error_lt_Some _ (all_edges g) (v / 4)) as [edge He]; [lia|].
  rewrite Hdm in Hx, Hy, Hz.
  rewrite (flat_map_nth_error quad_x 4 (fun _ => eq_refl) _ _ _ _ He Hr) in Hx.
  rewrite (flat_map_nth_error quad_y 4 (fun _ => eq_refl) _ _ _ _ He Hr) in Hy.
  rewrite (flat_map_nth_error (quad_z z_top) 4 (fun _ => eq_refl) _ _ _ _ He Hr) in Hz.
  apply nth_error_In in He. unfold all_edges in He. apply in_flat_map in He.
  destruct He as (p & Hp & Hedge).
  destruct (ring_edge_endpoints p edge (planar_geometry_In _ _ Hg Hp) Hedge)
    as (x1 & y1 & x2 & y2 & -> & In1 & In2).
  unfold quad_x, quad_y, quad_z in Hx, Hy, Hz. cbn [fst snd coord_x coord_y] in Hx, Hy.
  destruct (v mod 4) as [|[|[|[|r]]]]; try lia; simpl in Hx, Hy, Hz;
    injection Hx as <-; injection Hy as <-; injection Hz as <-;
    (split; [exists p; split; assumption | auto]).
Qed.

Lemma wall_vertices_on_boundary_witness :
  (exists p, In p (polys_of (GPolygon unit_square)) /\
             In (XY 1 1) (boundary_of p)) /\
  (Int 0 = Float 5 \/ Int 0 = Int 0).
Proof.
  apply (wall_vertices_on_boundary (GPolygon unit_square) (Float 5) _ 7 1%float 1%float
           (Int 0) unit_square_walls); reflexivity.
Defined.

(** * The row loop of [main] *)

Section RowLoop.

Variable triangulate : Polygon -> result (list Polygon).
Variable cell : Type.
Variable isnull : cell -> bool.
Variable height : cell -> num.

Lemma draw_row_skipped fig row :
  drawable isnull row = false ->
  draw_row triangulate isnull height fig row = Ok fig.
Proof.
  unfold draw_row, drawable.
  destruct (isnull (row_median_income row)), (row_geometry row); simpl;
    intros H; try reflexivity; discriminate.
Qed.

Lemma draw_row_kept fig row :
  drawable isnull row = true ->
  exists geometry,
    row_geometry row = Some geometry /\
    draw_row triangulate isnull height fig row =
    (top_mesh <- polygon_to_3d_top triangulate geometry (height (row_median_income row)) ;;
     wall_mesh <- polygon_side_walls geometry (height (row_median_income row)) ;;
     Ok (fig ++ [top_trace row (height (row_median_income row)) top_mesh;
                 wall_trace row wall_mesh])).
Proof.
  unfold draw_row, drawable.
  destruct (isnull (row_median_income row)), (row_geometry row) as [g|]; simpl;
    intros H; try discriminate.
  exists g. split; [reflexivity|].
  destruct (polygon_to_3d_top triangulate g _); simpl; [|reflexivity].
  destruct (polygon_side_walls g _); simpl; [|reflexivity].
  now rewrite <- app_assoc.
Qed.

(** X11: the loop skips the rows whose income is null or whose geometry
    is [None] without any effect: it does on all the rows what it does on
    the other rows alone. *)
Theorem skipped_rows_have_no_effect rows :
  draw_rows triangulate isnull height rows =
  draw_rows triangulate isnull height (filter (drawable isnull) rows).
Proof.
  unfold draw_rows. generalize (@nil (Mesh3d cell)) as fig.
  induction rows as [|row rows IH]; intros fig; simpl; [reflexivity|].
  destruct (drawable isnull row) eqn:D.
  - simpl. destruct (draw_row triangulate isnull height fig row); simpl;
      [apply IH | reflexivity].
  - rewrite (draw_row_skipped fig row D). simpl. apply IH.
Qed.

Lemma draw_rows_from fig0 rows fig :
  for_each (draw_row triangulate isnull height) rows fig0 = Ok fig ->
  exists rest,
    fig = fig0 ++ rest /\
    length rest = 2 * length (filter (drawable isnull) rows) /\
    forall k row, nth_error (filter (drawable isnull) rows) k = Some row ->
      exists geometry top_mesh wall_mesh,
        row_geometry row = Some geometry /\
        polygon_to_3d_top triangulate geometry (height (row_median_income row))
          = Ok top_mesh /\
        polygon_side_walls geometry (height (row_median_income row)) = Ok wall_mesh /\
        nth_error rest (2 * k) =
          Some (top_trace row (height (row_median_income row)) top_mesh) /\
        nth_error rest (2 * k + 1) = Some (wall_trace row wall_mesh).
Proof.
  revert fig0. induction rows as [|r rows IH]; intros fig0 H; simpl in H.
  - injection H as <-. exists []. rewrite app_nil_r. split; [reflexivity|].
    split; [reflexivity|]. intros [|k] row Hk; discriminate.
  - simpl filter.
    destruct (drawable isnull r) eqn:D.
    + destruct (draw_row_kept fig0 r D) as (g & Hg & Hbody). rewrite Hbody in H.
      destruct (polygon_to_3d_top triangulate g _) as [tm|] eqn:Et; simpl in H;
        [|discriminate].
      destruct (polygon_side_walls g _) as [wm|] eqn:Ew; simpl in H; [|discriminate].
      destruct (IH _ H) as (rest & -> & Hlen & Hnth).
      exists (top_trace r (height (row_median_income r)) tm :: wall_trace r wm :: rest).
      split; [now rewrite <- app_assoc|]. split; [simpl; lia|].
      intros [|k] row Hk; simpl in Hk.
      * injection Hk as <-. exists g, tm, wm. repeat split; assumption.
      * destruct (Hnth k row Hk) as (g' & tm' & wm' & Hg' & Ht' & Hw' & H1 & H2).
        exists g', tm', wm'. repeat (split; [assumption|]).
        replace (2 * S k) with (S (S (2 * k))) by lia. simpl. split; assumption.
    + rewrite (draw_row_skipped fig0 r D) in H. simpl in H. now apply IH.
Qed.

(** X12: when the loop returns, the figure holds two traces for each row
    that is not skipped, in the order of the rows: the top surface, under the
    name of the row, and then the walls, under that name followed by
    [" walls"], both computed from the geometry of the row at the height
    of the row. *)
Theorem figure_has_two_traces_per_row rows fig :
  draw_rows triangulate isnull height rows = Ok fig ->
  length fig = 2 * length (filter (drawable isnull) rows) /\
  forall k row, nth_error (filter (drawable isnull) rows) k = Some row ->
    exists geometry top_mesh wall_mesh,
      row_geometry row = Some geometry /\
      polygon_to_3d_top triangulate geometry (height (row_median_income row))
        = Ok top_mesh /\
      polygon_side_walls geometry (height (row_median_income row)) = Ok wall_mesh /\
      nth_error fig (2 * k) =
        Some (top_trace row (height (row_median_income row)) top_mesh) /\
      nth_error fig (2 * k + 1) = Some (wall_trace row wall_mesh) /\
      trace_name (wall_trace row wall_mesh) = String.append (row_name row) " walls".
Proof.
  intros H. destruct (draw_rows_from [] rows fig H) as (rest & -> & Hlen & Hnth).
  simpl. split; [exact Hlen|].
  intros k row Hk.
  destruct (Hnth k row Hk) as (g & tm & wm & Hg & Ht & Hw & H1 & H2).
  exists g, tm, wm. repeat (split; [assumption|]). reflexivity.
Qed.

(** X13: the loop has no handler.  If for one row that is not skipped the
    top surface or the walls raise, the loop raises, and no figure is
    returned for the other rows either. *)
Theorem one_failing_row_fails_the_loop rows row geometry :
  In row rows ->
  drawable isnull row = true ->
  row_geometry row = Some geometry ->
  (exists e, polygon_to_3d_top triangulate geometry (height (row_median_income row))
             = Raise e) \/
  (exists e, polygon_side_walls geometry (height (row_median_income row)) = Raise e) ->
  exists e, draw_rows triangulate isnull height rows = Raise e.
Proof.
  intros Hin Hd Hg Hfail.
  destruct (draw_rows triangulate isnull height rows) as [fig|e] eqn:E;
    [|now exists e].
  destruct (draw_rows_from [] rows fig E) as (rest & -> & _ & Hnth).
  assert (Hk : In row (filter (drawable isnull) rows)) by (apply filter_In; now split).
  destruct (In_nth_error _ _ Hk) as [k Hnk].
  destruct (Hnth k row Hnk) as (g & tm & wm & Hg' & Ht & Hw & _).
  rewrite Hg in Hg'. injection Hg' as <-.
  destruct Hfail as [[e He]|[e He]]; congruence.
Qed.

End RowLoop.

Example sample_rows_names :
  match draw_rows fan_triangulate PrimFloat.is_nan (float_height 40000) sample_rows with
  | Ok fig => map trace_name fig
  | Raise _ => []
  end = ["Adams"; "Adams walls"; "Athens"; "Athens walls"]%string.
Proof. vm_compute. reflexivity. Qed.

Lemma figure_has_two_traces_per_row_witness :
  exists fig top_mesh wall_mesh,
    draw_rows fan_triangulate PrimFloat.is_nan (float_height 40000) sample_rows = Ok fig /\
    length fig = 4 /\
    polygon_to_3d_top fan_triangulate (GMultiPolygon [unit_square; far_square])
      (Float 0) = Ok top_mesh /\
    polygon_side_walls (GMultiPolygon [unit_square; far_square]) (Float 0)
      = Ok wall_mesh /\
    option_map trace_mesh (nth_error fig 2) = Some top_mesh /\
    option_map trace_mesh (nth_error fig 3) = Some wall_mesh /\
    option_map trace_name (nth_error fig 3) = Some "Athens walls"%string.
Proof.
  destruct (draw_rows fan_triangulate PrimFloat.is_nan (float_height 40000) sample_rows)
    as [fig|e] eqn:E; [|vm_compute in E; discriminate].
  destruct (figure_has_two_traces_per_row fan_triangulate float PrimFloat.is_nan
              (float_height 40000) sample_rows fig E) as [Hlen Hnth].
  destruct (Hnth 1 (mkRow "Athens"%string 40000%float
                      (Some (GMultiPolygon [unit_square; far_square]))) eq_refl)
    as (g & tm & wm & Hg & Ht & Hw & H2 & H3 & Hname).
  injection Hg as <-.
  exists fig, tm, wm. split; [reflexivity|]. split; [exact Hlen|].
  split; [exact Ht|]. split; [exact Hw|].
  change (2 * 1) with 2 in H2. change (2 * 1 + 1) with 3 in H3.
  rewrite H2, H3. simpl. repeat split.
Defined.

Lemma one_failing_row_fails_the_loop_witness :
  exists e,
    draw_rows fan_triangulate PrimFloat.is_nan (float_height 40000) failing_rows = Raise e.
Proof.
  apply (one_failing_row_fails_the_loop fan_triangulate float PrimFloat.is_nan
           (float_height 40000) failing_rows
           (mkRow "Auglaize"%string 47000%float (Some (GPolygon spatial_triangle)))
           (GPolygon spatial_triangle)).
  - vm_compute. tauto.
  - reflexivity.
  - reflexivity.
  - right. exists ValueError. vm_compute. reflexivity.
Defined.
